(** * skypilot_mcp.helpers: result normalisation and error translation

    A shallow embedding of [src/skypilot_mcp/helpers.py] (and of the one tool
    of [tools/logs.py] that captures logs itself), with the properties that
    the specification states about it.

    Conventions of the embedding.
    - A Python [str] is the list of its Unicode code points; [bytes] is a list
      of [byte].  Python's unbounded [int] is [Z].
    - An exception is a value carrying its class, the remaining classes of its
      method resolution order, its [str()] and its [__cause__].  An [except C]
      clause is the test [isinstance e C].
    - A function that calls the SkyPilot SDK is a tree of calls: at each call
      the collaborator answers with a value or with an exception.  *)

From Stdlib Require Import List ZArith NArith Bool String Ascii Lia.
From Stdlib Require Import Strings.Byte.
From Stdlib Require Import Permutation Sorted DecimalString.
Import ListNotations.
Open Scope list_scope.
Set Warnings "-register-all,-abstract-large-number".

(* ================================================================= *)
(** ** Python text *)

Module Text.

(** A [str]: its code points, in order. *)
Definition pystr := list N.

(** A literal of the source, as a [str]. *)
Definition lit (s : string) : pystr :=
  map N_of_ascii (list_ascii_of_string s).

(** [str(n)] for an [int]. *)
Definition str_of_int (z : Z) : pystr :=
  lit (NilZero.string_of_int (Z.to_int z)).

(** [str(x)] for an [int | None]. *)
Definition str_of_opt_int (o : option Z) : pystr :=
  match o with
  | Some z => str_of_int z
  | None => lit "None"
  end.

(** [c.isspace()] for one character, the test [str.strip()] applies:
    the code points CPython lists as whitespace. *)
Definition is_space (c : N) : bool :=
  (((9 <=? c) && (c <=? 13)) || ((28 <=? c) && (c <=? 32))
   || (c =? 133) || (c =? 160) || (c =? 5760)
   || ((8192 <=? c) && (c <=? 8202))
   || (c =? 8232) || (c =? 8233) || (c =? 8239) || (c =? 8287)
   || (c =? 12288))%N.

Fixpoint lstrip (s : pystr) : pystr :=
  match s with
  | [] => []
  | c :: r => if is_space c then lstrip r else s
  end.

Definition rstrip (s : pystr) : pystr := rev (lstrip (rev s)).

(** [s.strip()] *)
Definition strip (s : pystr) : pystr := rstrip (lstrip s).

(** Truth value of a [str]: non-empty. *)
Definition truthy (s : pystr) : bool :=
  match s with [] => false | _ :: _ => true end.

(** Does [needle] occur in [hay] ([needle in hay])? *)
Fixpoint starts_with (needle hay : pystr) : bool :=
  match needle, hay with
  | [], _ => true
  | _ :: _, [] => false
  | a :: n', b :: h' => (a =? b)%N && starts_with n' h'
  end.

Fixpoint contains (needle hay : pystr) : bool :=
  starts_with needle hay ||
  match hay with
  | [] => false
  | _ :: h' => contains needle h'
  end.

End Text.
Import Text.
Arguments lit s%_string.


(* ================================================================= *)
(** ** Exceptions *)

Module Exn.

(** The exception classes the helpers name, and any other class by its
    [__name__]. *)
Inductive exc_class : Type :=
| ToolError
| ApiServerAuthenticationError
| PermissionDeniedError
| UserRequestRejectedByPolicy
| ApiServerConnectionError
| ServerTemporarilyUnavailableError
| APIVersionMismatchError
| APINotSupportedError
| ClusterDoesNotExist
| ClusterNotUpError
| ClusterSetUpError
| InvalidClusterNameError
| ResourcesUnavailableError
| CloudError
| InvalidCloudConfigs
| InvalidCloudCredentials
| NoCloudAccessError
| NetworkError
| StorageError
| VolumeNotFoundError
| VolumeNotReadyError
| PortDoesNotExistError
| CommandError
| NotSupportedError
| RequestCancelled
| ValueError
| TimeoutError
| RuntimeError
| TypeError
| OSError
| PyException
| PyBaseException
| OtherClass (name : string).

Definition exc_class_eq_dec (a b : exc_class) : {a = b} + {a <> b}.
Proof. decide equality. apply string_dec. Defined.

Definition class_eqb (a b : exc_class) : bool :=
  if exc_class_eq_dec a b then true else false.

(** [C.__name__] *)
Definition class_name (c : exc_class) : pystr :=
  match c with
  | ToolError => lit "ToolError"
  | ApiServerAuthenticationError => lit "ApiServerAuthenticationError"
  | PermissionDeniedError => lit "PermissionDeniedError"
  | UserRequestRejectedByPolicy => lit "UserRequestRejectedByPolicy"
  | ApiServerConnectionError => lit "ApiServerConnectionError"
  | ServerTemporarilyUnavailableError =>
      lit "ServerTemporarilyUnavailableError"
  | APIVersionMismatchError => lit "APIVersionMismatchError"
  | APINotSupportedError => lit "APINotSupportedError"
  | ClusterDoesNotExist => lit "ClusterDoesNotExist"
  | ClusterNotUpError => lit "ClusterNotUpError"
  | ClusterSetUpError => lit "ClusterSetUpError"
  | InvalidClusterNameError => lit "InvalidClusterNameError"
  | ResourcesUnavailableError => lit "ResourcesUnavailableError"
  | CloudError => lit "CloudError"
  | InvalidCloudConfigs => lit "InvalidCloudConfigs"
  | InvalidCloudCredentials => lit "InvalidCloudCredentials"
  | NoCloudAccessError => lit "NoCloudAccessError"
  | NetworkError => lit "NetworkError"
  | StorageError => lit "StorageError"
  | VolumeNotFoundError => lit "VolumeNotFoundError"
  | VolumeNotReadyError => lit "VolumeNotReadyError"
  | PortDoesNotExistError => lit "PortDoesNotExistError"
  | CommandError => lit "CommandError"
  | NotSupportedError => lit "NotSupportedError"
  | RequestCancelled => lit "RequestCancelled"
  | ValueError => lit "ValueError"
  | TimeoutError => lit "TimeoutError"
  | RuntimeError => lit "RuntimeError"
  | TypeError => lit "TypeError"
  | OSError => lit "OSError"
  | PyException => lit "Exception"
  | PyBaseException => lit "BaseException"
  | OtherClass name => lit name
  end.

(** A raised exception: [type(e)], the classes [type(e)] derives from,
    [str(e)] and [e.__cause__]. *)
Inductive exc : Type :=
| Exc (exc_type : exc_class) (exc_bases : list exc_class)
      (exc_str : pystr) (exc_cause : option exc).

Definition exc_type (e : exc) : exc_class :=
  match e with Exc c _ _ _ => c end.
Definition exc_bases (e : exc) : list exc_class :=
  match e with Exc _ b _ _ => b end.
Definition exc_str (e : exc) : pystr :=
  match e with Exc _ _ s _ => s end.
Definition exc_cause (e : exc) : option exc :=
  match e with Exc _ _ _ c => c end.

(** [isinstance(e, C)], the test of an [except C] clause. *)
Definition isinstance (e : exc) (c : exc_class) : bool :=
  existsb (class_eqb c) (exc_type e :: exc_bases e).

(** Constructors of the exceptions the helpers raise themselves. *)
Definition new_ValueError (msg : pystr) : exc :=
  Exc ValueError [PyException; PyBaseException] msg None.
Definition new_RuntimeError (msg : pystr) : exc :=
  Exc RuntimeError [PyException; PyBaseException] msg None.
Definition new_TimeoutError (msg : pystr) : exc :=
  Exc TimeoutError [OSError; PyException; PyBaseException] msg None.
(** [raise ToolError(msg) from e] *)
Definition new_ToolError_from (msg : pystr) (e : exc) : exc :=
  Exc ToolError [OtherClass "FastMCPError"; PyException; PyBaseException]
      msg (Some e).

(** What a call ends with. *)
Inductive outcome (A : Type) : Type :=
| Returned (a : A)
| Raised (e : exc).
Arguments Returned {A} a.
Arguments Raised {A} e.

End Exn.
Import Exn.

(* ================================================================= *)
(** ** Calls into the SkyPilot SDK *)

Module Sdk.

(** The SDK entry points the helpers call, with the arguments passed; a
    [tail] argument is [Some n] for the int [n] and [None] for [None].
    The [output_stream] of the tail calls is the helper's own buffer. *)
Inductive sdk_call : Type :=
| Task_from_yaml_str (yaml_str : pystr)
| Load_chain_dag_from_yaml_str (yaml_str : pystr)
| Tail_logs (cluster_name : pystr) (job_id : option Z)
            (follow : bool) (tail : option Z)
| Jobs_tail_logs (name : option pystr) (job_id : option Z)
                 (follow controller refresh : bool)
                 (task : option (pystr + Z)) (tail : option Z)
| Serve_tail_logs (service_name target : pystr) (replica_id : option Z)
                  (follow : bool) (tail : option Z)
| Jobs_pool_tail_logs (pool_name target : pystr) (worker_id : option Z)
                      (follow : bool) (tail : option Z)
| Tail_autostop_logs (cluster_name : pystr) (follow : bool)
                     (tail : option Z).

(** An object of the SDK ([sky.Task], [sky.Dag]), opaque to the helpers. *)
Inductive sky_object : Type := SkyObject (id : N).

(** What a tail call leaves behind: the text it wrote to the stream and
    the value it returned ([None] or an [int] exit code). *)
Record tail_reply : Type :=
  { written : pystr; exit_code : option Z }.

Definition sdk_reply (c : sdk_call) : Type :=
  match c with
  | Task_from_yaml_str _ | Load_chain_dag_from_yaml_str _ => sky_object
  | _ => tail_reply
  end.

(** A computation that may call the SDK and may raise. *)
Inductive prog (A : Type) : Type :=
| Ret (a : A)
| Raise (e : exc)
| Call (c : sdk_call) (k : outcome (sdk_reply c) -> prog A).
Arguments Ret {A} a.
Arguments Raise {A} e.
Arguments Call {A} c k.

(** A call whose exception, if any, propagates. *)
Definition call (c : sdk_call) : prog (sdk_reply c) :=
  Call c (fun r => match r with
                   | Returned x => Ret x
                   | Raised e => Raise e
                   end).

Fixpoint bind {A B : Type} (p : prog A) (f : A -> prog B) : prog B :=
  match p with
  | Ret a => f a
  | Raise e => Raise e
  | Call c k => Call c (fun r => bind (k r) f)
  end.

(** [try: p  except BaseException as e: h e] *)
Fixpoint catch {A : Type} (p : prog A) (h : exc -> prog A) : prog A :=
  match p with
  | Ret a => Ret a
  | Raise e => h e
  | Call c k => Call c (fun r => catch (k r) h)
  end.

(** The collaborator: its answer to each call. *)
Definition sdk : Type := forall c : sdk_call, outcome (sdk_reply c).

(** Running a computation against a collaborator: the calls made, in
    order, and the outcome. *)
Fixpoint run {A : Type} (s : sdk) (p : prog A)
  : list sdk_call * outcome A :=
  match p with
  | Ret a => ([], Returned a)
  | Raise e => ([], Raised e)
  | Call c k => let (cs, o) := run s (k (s c)) in (c :: cs, o)
  end.

Definition calls {A : Type} (s : sdk) (p : prog A) : list sdk_call :=
  fst (run s p).
Definition result {A : Type} (s : sdk) (p : prog A) : outcome A :=
  snd (run s p).

End Sdk.
Import Sdk.

Notation "x <- p ;; q" := (bind p (fun x => q))
  (at level 61, p at next level, right associativity).

(* ================================================================= *)
(** ** helpers.py: YAML entry points *)

(** [create_task_from_yaml]; the argument is [None] or a [str]. *)
Definition create_task_from_yaml (yaml_str : option pystr)
  : prog sky_object :=
  match yaml_str with
  | None =>
      Raise (new_ValueError (lit "task_yaml must be a non-empty YAML string."))
  | Some s =>
      if negb (truthy s) || negb (truthy (strip s)) then
        Raise (new_ValueError
                 (lit "task_yaml must be a non-empty YAML string."))
      else call (Task_from_yaml_str s)
  end.

(** [load_dag_from_yaml] *)
Definition load_dag_from_yaml (yaml_str : option pystr) : prog sky_object :=
  match yaml_str with
  | None =>
      Raise (new_ValueError (lit "task_yaml must be a non-empty YAML string."))
  | Some s =>
      if negb (truthy s) || negb (truthy (strip s)) then
        Raise (new_ValueError
                 (lit "task_yaml must be a non-empty YAML string."))
      else call (Load_chain_dag_from_yaml_str s)
  end.

(* ================================================================= *)
(** ** helpers.py: log capture *)

(** The [tail] handed to the SDK calls that take [None] for all lines:
    [None if tail == 0 else tail]. *)
Definition sdk_tail (tail : Z) : option Z :=
  if (tail =? 0)%Z then None else Some tail.

(** Truth value of an exit code ([if exit_code:]): [None] and [0] are
    false. *)
Definition exit_truthy (exit_code : option Z) : bool :=
  match exit_code with
  | None => false
  | Some z => negb (z =? 0)%Z
  end.

Section LogCapture.

(** [repr()] of a [str], as the [!r] conversions of the messages use it. *)
Variable repr : pystr -> pystr.

(** [capture_cluster_logs] *)
Definition capture_cluster_logs
  (cluster_name : pystr) (job_id : option Z) (tail : Z) : prog pystr :=
  r <- call (Tail_logs cluster_name job_id false (Some tail)) ;;
  if exit_truthy (exit_code r) then
    Raise (new_RuntimeError
             (lit "Failed to retrieve logs for cluster " ++ repr cluster_name
              ++ lit " (job_id=" ++ str_of_opt_int job_id
              ++ lit "): tail_logs returned exit code "
              ++ str_of_opt_int (exit_code r) ++ lit "."))
  else Ret (written r).

(** [name or job_id], formatted. *)
Definition managed_job_identifier
  (name : option pystr) (job_id : option Z) : pystr :=
  match name with
  | Some n => if truthy n then n else str_of_opt_int job_id
  | None => str_of_opt_int job_id
  end.

(** [capture_managed_job_logs] *)
Definition capture_managed_job_logs
  (name : option pystr) (job_id : option Z) (controller refresh : bool)
  (task : option (pystr + Z)) (tail : Z) : prog pystr :=
  r <- call (Jobs_tail_logs name job_id false controller refresh task
                            (sdk_tail tail)) ;;
  if exit_truthy (exit_code r) then
    Raise (new_RuntimeError
             (lit "Failed to retrieve managed job logs ("
              ++ managed_job_identifier name job_id
              ++ lit "): tail_logs returned exit code "
              ++ str_of_opt_int (exit_code r) ++ lit "."))
  else Ret (written r).

(** [capture_serve_logs] *)
Definition capture_serve_logs
  (service_name target : pystr) (replica_id : option Z) (tail : Z)
  : prog pystr :=
  r <- call (Serve_tail_logs service_name target replica_id false
                             (sdk_tail tail)) ;;
  Ret (written r).

(** [capture_pool_logs] *)
Definition capture_pool_logs
  (pool_name target : pystr) (worker_id : option Z) (tail : Z)
  : prog pystr :=
  r <- call (Jobs_pool_tail_logs pool_name target worker_id false
                                 (sdk_tail tail)) ;;
  Ret (written r).

(** tools/logs.py: the body of [skypilot_tail_autostop_logs], which
    captures what the SDK call prints, under [_STDOUT_REDIRECT_LOCK]. *)
Definition tail_autostop_logs_body (cluster_name : pystr) (tail : Z)
  : prog pystr :=
  r <- call (Tail_autostop_logs cluster_name false (Some tail)) ;;
  let output := written r in
  if exit_truthy (exit_code r) then
    Raise (new_RuntimeError
             (lit "Failed to retrieve autostop logs for cluster "
              ++ repr cluster_name ++ lit ": exit code "
              ++ str_of_opt_int (exit_code r) ++ lit "."
              ++ (if truthy output
                  then [10%N] ++ lit "Output: " ++ output
                  else [])))
  else Ret output.

End LogCapture.

(** The [tail] argument of a tail call. *)
Definition tail_arg (c : sdk_call) : option (option Z) :=
  match c with
  | Tail_logs _ _ _ t => Some t
  | Jobs_tail_logs _ _ _ _ _ _ t => Some t
  | Serve_tail_logs _ _ _ _ t => Some t
  | Jobs_pool_tail_logs _ _ _ _ t => Some t
  | Tail_autostop_logs _ _ t => Some t
  | _ => None
  end.

(** A collaborator that answers every tail call with the same reply, and
    every parse with the same object. *)
Definition sdk_replying (r : tail_reply) : sdk :=
  fun c =>
    match c return outcome (sdk_reply c) with
    | Task_from_yaml_str _ => Returned (SkyObject 0)
    | Load_chain_dag_from_yaml_str _ => Returned (SkyObject 0)
    | Tail_logs _ _ _ _ => Returned r
    | Jobs_tail_logs _ _ _ _ _ _ _ => Returned r
    | Serve_tail_logs _ _ _ _ _ => Returned r
    | Jobs_pool_tail_logs _ _ _ _ _ => Returned r
    | Tail_autostop_logs _ _ _ => Returned r
    end.

(** [repr()] of a [str] of printable ASCII characters without quote or
    backslash, for the examples. *)
Definition repr_plain (s : pystr) : pystr := lit "'" ++ s ++ lit "'".

(* ================================================================= *)
(** ** helpers.py: the error translator *)

(** The [except] clauses of [wrapper], in order. *)
Definition translate {A : Type} (e : exc) : prog A :=
  if isinstance e ToolError then Raise e
  else if isinstance e ApiServerAuthenticationError then
    Raise (new_ToolError_from
             (lit "Authentication required: " ++ exc_str e
              ++ lit ". Use skypilot_api_login to authenticate.") e)
  else if isinstance e PermissionDeniedError then
    Raise (new_ToolError_from (lit "Permission denied: " ++ exc_str e) e)
  else if isinstance e UserRequestRejectedByPolicy then
    Raise (new_ToolError_from
             (lit "Request rejected by admin policy: " ++ exc_str e) e)
  else if isinstance e ApiServerConnectionError then
    Raise (new_ToolError_from (lit "API server unreachable: " ++ exc_str e) e)
  else if isinstance e ServerTemporarilyUnavailableError then
    Raise (new_ToolError_from
             (lit "API server temporarily unavailable (retry later): "
              ++ exc_str e) e)
  else if isinstance e APIVersionMismatchError then
    Raise (new_ToolError_from (lit "API version mismatch: " ++ exc_str e) e)
  else if isinstance e APINotSupportedError then
    Raise (new_ToolError_from
             (lit "API not supported by server: " ++ exc_str e) e)
  else if isinstance e ClusterDoesNotExist then
    Raise (new_ToolError_from (lit "Cluster not found: " ++ exc_str e) e)
  else if isinstance e ClusterNotUpError then
    Raise (new_ToolError_from (lit "Cluster not up: " ++ exc_str e) e)
  else if isinstance e ClusterSetUpError then
    Raise (new_ToolError_from (lit "Cluster setup failed: " ++ exc_str e) e)
  else if isinstance e InvalidClusterNameError then
    Raise (new_ToolError_from (lit "Invalid cluster name: " ++ exc_str e) e)
  else if isinstance e ResourcesUnavailableError then
    Raise (new_ToolError_from (lit "Resources unavailable: " ++ exc_str e) e)
  else if isinstance e CloudError then
    Raise (new_ToolError_from (lit "Cloud provider error: " ++ exc_str e) e)
  else if isinstance e InvalidCloudConfigs then
    Raise (new_ToolError_from
             (lit "Invalid cloud configuration: " ++ exc_str e) e)
  else if isinstance e InvalidCloudCredentials then
    Raise (new_ToolError_from
             (lit "Invalid cloud credentials: " ++ exc_str e) e)
  else if isinstance e NoCloudAccessError then
    Raise (new_ToolError_from (lit "No cloud access: " ++ exc_str e) e)
  else if isinstance e NetworkError then
    Raise (new_ToolError_from (lit "Network error: " ++ exc_str e) e)
  else if isinstance e StorageError then
    Raise (new_ToolError_from (lit "Storage error: " ++ exc_str e) e)
  else if isinstance e VolumeNotFoundError then
    Raise (new_ToolError_from (lit "Volume not found: " ++ exc_str e) e)
  else if isinstance e VolumeNotReadyError then
    Raise (new_ToolError_from (lit "Volume not ready: " ++ exc_str e) e)
  else if isinstance e PortDoesNotExistError then
    Raise (new_ToolError_from (lit "Port not found: " ++ exc_str e) e)
  else if isinstance e CommandError then
    Raise (new_ToolError_from (lit "Command error: " ++ exc_str e) e)
  else if isinstance e NotSupportedError then
    Raise (new_ToolError_from (lit "Not supported: " ++ exc_str e) e)
  else if isinstance e RequestCancelled then
    Raise (new_ToolError_from (lit "Request cancelled: " ++ exc_str e) e)
  else if isinstance e ValueError then
    Raise (new_ToolError_from (lit "Invalid input: " ++ exc_str e) e)
  else if isinstance e TimeoutError then
    Raise (new_ToolError_from (lit "Timeout: " ++ exc_str e) e)
  else if isinstance e PyException then
    Raise (new_ToolError_from
             (class_name (exc_type e) ++ lit ": " ++ exc_str e) e)
  else Raise e.

(** [handle_skypilot_error(func)]: the decorated function. *)
Definition handle_skypilot_error {Args A : Type} (func : Args -> prog A)
  : Args -> prog A :=
  fun args => catch (func args) translate.

(** The failure [wrapper] raises in place of [e]. *)
Definition surfaced (e : exc) : exc :=
  match @translate unit e with
  | Raise e' => e'
  | _ => e
  end.

Ltac split_isinstance :=
  repeat match goal with
         | |- context [if isinstance ?e ?c then _ else _] =>
             let H := fresh "Hi" in
             destruct (isinstance e c) eqn:H
         end.

(** tools/logs.py: [skypilot_tail_autostop_logs], decorated. *)
Definition skypilot_tail_autostop_logs (repr : pystr -> pystr)
  : pystr * Z -> prog pystr :=
  handle_skypilot_error
    (fun a => tail_autostop_logs_body repr (fst a) (snd a)).

(** The translation table of the specification, row by row: the kind
    matched, the text before the original message and the text after it. *)
Definition translation_table : list (exc_class * (pystr * pystr)) :=
  [ (ApiServerAuthenticationError,
     (lit "Authentication required: ",
      lit ". Use skypilot_api_login to authenticate."));
    (PermissionDeniedError, (lit "Permission denied: ", []));
    (UserRequestRejectedByPolicy,
     (lit "Request rejected by admin policy: ", []));
    (ApiServerConnectionError, (lit "API server unreachable: ", []));
    (ServerTemporarilyUnavailableError,
     (lit "API server temporarily unavailable (retry later): ", []));
    (APIVersionMismatchError, (lit "API version mismatch: ", []));
    (APINotSupportedError, (lit "API not supported by server: ", []));
    (ClusterDoesNotExist, (lit "Cluster not found: ", []));
    (ClusterNotUpError, (lit "Cluster not up: ", []));
    (ClusterSetUpError, (lit "Cluster setup failed: ", []));
    (InvalidClusterNameError, (lit "Invalid cluster name: ", []));
    (ResourcesUnavailableError, (lit "Resources unavailable: ", []));
    (CloudError, (lit "Cloud provider error: ", []));
    (InvalidCloudConfigs, (lit "Invalid cloud configuration: ", []));
    (InvalidCloudCredentials, (lit "Invalid cloud credentials: ", []));
    (NoCloudAccessError, (lit "No cloud access: ", []));
    (NetworkError, (lit "Network error: ", []));
    (StorageError, (lit "Storage error: ", []));
    (VolumeNotFoundError, (lit "Volume not found: ", []));
    (VolumeNotReadyError, (lit "Volume not ready: ", []));
    (PortDoesNotExistError, (lit "Port not found: ", []));
    (CommandError, (lit "Command error: ", []));
    (NotSupportedError, (lit "Not supported: ", []));
    (RequestCancelled, (lit "Request cancelled: ", []));
    (ValueError, (lit "Invalid input: ", []));
    (TimeoutError, (lit "Timeout: ", [])) ].

(** The first row of a table that a failure is an instance of. *)
Definition first_match (table : list (exc_class * (pystr * pystr)))
  (e : exc) : option (exc_class * (pystr * pystr)) :=
  find (fun row => isinstance e (fst row)) table.

(* ================================================================= *)
(** ** helpers.py: the request resolver *)

(** [DEFAULT_RESOLVE_TIMEOUT], in seconds. *)
Definition DEFAULT_RESOLVE_TIMEOUT : Z := 580.

(** The MCP tool timeout the comment on [DEFAULT_RESOLVE_TIMEOUT] names. *)
Definition MCP_TOOL_TIMEOUT : Z := 600.

(** How the blocking [sky.get(request_id)] behaves once submitted to the
    worker thread: it ends after some seconds, with a result or an
    exception, or it never ends. *)
Inductive fetch (A : Type) : Type :=
| Completes (seconds : Z) (o : outcome A)
| Never.
Arguments Completes {A} seconds o.
Arguments Never {A}.

(** [future.result(timeout=timeout)]: the outcome of the call if it ends
    within the bound; otherwise the wait is given up at the bound. *)
Inductive waited (A : Type) : Type :=
| Done (at_ : Z) (o : outcome A)
| GivenUp (at_ : Z).
Arguments Done {A} at_ o.
Arguments GivenUp {A} at_.

Definition future_result {A : Type} (f : fetch A) (timeout : Z) : waited A :=
  match f with
  | Completes d o => if (d <=? timeout)%Z then Done d o else GivenUp timeout
  | Never => GivenUp timeout
  end.

(** Leaving [with ThreadPoolExecutor(max_workers=1) as pool]: [__exit__]
    is [shutdown(wait=True)], which joins the worker thread.  A call that
    is already running is not stopped by [future.cancel()].  The block is
    left when the call has ended; if it never ends the block is never
    left. *)
Definition pool_exit {A : Type} (f : fetch A) (now : Z) : option Z :=
  match f with
  | Completes d _ => Some (Z.max now d)
  | Never => None
  end.

Section Resolver.

Context {A : Type}.

(** [sky.get], as run on the worker thread. *)
Variable sky_get : pystr -> fetch A.

(** [concurrent.futures.TimeoutError]: the built-in [TimeoutError] from
    Python 3.11 on, a class of its own before. *)
Variable futures_TimeoutError : exc_class.

Definition resolve_timeout_message (request_id : pystr) (timeout : Z)
  : pystr :=
  lit "Request " ++ request_id ++ lit " did not complete within "
  ++ str_of_int timeout ++ lit "s. "
  ++ lit "The request may still be running on the server. "
  ++ lit "Use skypilot_api_status to check its status.".

(** [resolve_request(request_id, timeout)]; [timeout = None] stands for
    the omitted argument.  The result is the time at which the function
    is left and how, or [None] when it is never left. *)
Definition resolve_request (request_id : pystr) (timeout : option Z)
  : option (Z * outcome A) :=
  let timeout :=
    match timeout with Some t => t | None => DEFAULT_RESOLVE_TIMEOUT end in
  let future := sky_get request_id in
  let body :=
    match future_result future timeout with
    | Done t (Returned r) => (t, Returned r)
    | Done t (Raised e) =>
        if isinstance e futures_TimeoutError then
          (t, Raised (new_TimeoutError
                        (resolve_timeout_message request_id timeout)))
        else (t, Raised e)
    | GivenUp t =>
        (t, Raised (new_TimeoutError
                      (resolve_timeout_message request_id timeout)))
    end in
  match pool_exit future (fst body) with
  | Some t => Some (t, snd body)
  | None => None
  end.

End Resolver.

(* ================================================================= *)
(** ** The codecs the serializer relies on *)

Module Codec.

Local Open Scope N_scope.

(** The byte with a given value (values above 255 do not occur). *)
Definition byte_of (n : N) : byte :=
  match Byte.of_N n with
  | Some b => b
  | None => x00
  end.

(** *** UTF-8 *)

(** A continuation byte. *)
Definition is_cont (x : N) : bool := (128 <=? x) && (x <=? 191).

(** A code point that text may hold and UTF-8 may encode: not a
    surrogate, at most U+10FFFF. *)
Definition scalar (c : N) : bool :=
  (c <? 55296) || ((57344 <=? c) && (c <=? 1114111)).

(** [s.encode("utf-8")], one code point at a time. *)
Definition utf8_encode_char (c : N) : list byte :=
  if c <? 128 then [byte_of c]
  else if c <? 2048 then [byte_of (192 + c / 64); byte_of (128 + c mod 64)]
  else if c <? 65536 then
    [byte_of (224 + c / 4096); byte_of (128 + (c / 64) mod 64);
     byte_of (128 + c mod 64)]
  else
    [byte_of (240 + c / 262144); byte_of (128 + (c / 4096) mod 64);
     byte_of (128 + (c / 64) mod 64); byte_of (128 + c mod 64)].

Definition utf8_encode (s : pystr) : list byte :=
  flat_map utf8_encode_char s.

(** [b.decode("utf-8")]: [None] stands for [UnicodeDecodeError].  The
    decoder is strict: no overlong form, no surrogate, nothing above
    U+10FFFF, no truncated sequence. *)
Fixpoint utf8_decode (bs : list byte) : option pystr :=
  match bs with
  | [] => Some []
  | b0 :: r0 =>
      let x0 := Byte.to_N b0 in
      if x0 <? 128 then option_map (cons x0) (utf8_decode r0)
      else if (194 <=? x0) && (x0 <=? 223) then
        match r0 with
        | b1 :: r1 =>
            let x1 := Byte.to_N b1 in
            if is_cont x1 then
              option_map (cons ((x0 - 192) * 64 + (x1 - 128)))
                         (utf8_decode r1)
            else None
        | _ => None
        end
      else if (224 <=? x0) && (x0 <=? 239) then
        match r0 with
        | b1 :: b2 :: r2 =>
            let x1 := Byte.to_N b1 in
            let x2 := Byte.to_N b2 in
            if is_cont x1 && is_cont x2
               && (negb (x0 =? 224) || (160 <=? x1))
               && (negb (x0 =? 237) || (x1 <=? 159)) then
              option_map
                (cons ((x0 - 224) * 4096 + (x1 - 128) * 64 + (x2 - 128)))
                (utf8_decode r2)
            else None
        | _ => None
        end
      else if (240 <=? x0) && (x0 <=? 244) then
        match r0 with
        | b1 :: b2 :: b3 :: r3 =>
            let x1 := Byte.to_N b1 in
            let x2 := Byte.to_N b2 in
            let x3 := Byte.to_N b3 in
            if is_cont x1 && is_cont x2 && is_cont x3
               && (negb (x0 =? 240) || (144 <=? x1))
               && (negb (x0 =? 244) || (x1 <=? 143)) then
              option_map
                (cons ((x0 - 240) * 262144 + (x1 - 128) * 4096
                       + (x2 - 128) * 64 + (x3 - 128)))
                (utf8_decode r3)
            else None
        | _ => None
        end
      else None
  end.

(** A byte string is valid UTF-8 when it is the encoding of some text. *)
Definition valid_utf8 (bs : list byte) : Prop :=
  exists s, forallb scalar s = true /\ utf8_encode s = bs.

(** *** Base64 (RFC 4648, standard alphabet, padded) *)

Definition b64_alphabet : pystr :=
  lit "ABCDEFGHIJKLMNOPQRSTUVWXYZabcdefghijklmnopqrstuvwxyz0123456789+/".

(** The character of a six-bit group. *)
Definition b64_char (i : N) : N := nth (N.to_nat i) b64_alphabet 0.

(** The six-bit group of a character of the alphabet. *)
Definition b64_index (c : N) : option N :=
  if (65 <=? c) && (c <=? 90) then Some (c - 65)
  else if (97 <=? c) && (c <=? 122) then Some (c - 71)
  else if (48 <=? c) && (c <=? 57) then Some (c + 4)
  else if c =? 43 then Some 62
  else if c =? 47 then Some 63
  else None.

(** The padding character [=]. *)
Definition b64_pad : N := 61.

(** [base64.b64encode(bs).decode("ascii")] *)
Fixpoint b64encode (bs : list byte) : pystr :=
  match bs with
  | [] => []
  | [a] =>
      let x := Byte.to_N a in
      [b64_char (x / 4); b64_char ((x mod 4) * 16); b64_pad; b64_pad]
  | [a; b] =>
      let x := Byte.to_N a in
      let y := Byte.to_N b in
      [b64_char (x / 4); b64_char ((x mod 4) * 16 + y / 16);
       b64_char ((y mod 16) * 4); b64_pad]
  | a :: b :: c :: r =>
      let x := Byte.to_N a in
      let y := Byte.to_N b in
      let z := Byte.to_N c in
      b64_char (x / 4) :: b64_char ((x mod 4) * 16 + y / 16)
      :: b64_char ((y mod 16) * 4 + z / 64) :: b64_char (z mod 64)
      :: b64encode r
  end.

(** [base64.b64decode(s)] on padded text of the standard alphabet;
    [None] stands for [binascii.Error]. *)
Fixpoint b64decode (s : pystr) : option (list byte) :=
  match s with
  | [] => Some []
  | c1 :: c2 :: c3 :: c4 :: r =>
      match b64_index c1, b64_index c2 with
      | Some i1, Some i2 =>
          if c4 =? b64_pad then
            match r with
            | [] =>
                if c3 =? b64_pad then Some [byte_of (i1 * 4 + i2 / 16)]
                else
                  match b64_index c3 with
                  | Some i3 =>
                      Some [byte_of (i1 * 4 + i2 / 16);
                            byte_of ((i2 mod 16) * 16 + i3 / 4)]
                  | None => None
                  end
            | _ :: _ => None
            end
          else
            match b64_index c3, b64_index c4 with
            | Some i3, Some i4 =>
                option_map
                  (fun bs => byte_of (i1 * 4 + i2 / 16)
                             :: byte_of ((i2 mod 16) * 16 + i3 / 4)
                             :: byte_of ((i3 mod 4) * 64 + i4) :: bs)
                  (b64decode r)
            | _, _ => None
            end
      | _, _ => None
      end
  | _ => None
  end.

End Codec.
Import Codec.

(* ================================================================= *)
(** ** helpers.py: the serializer *)

(** The objects handed to the serializer, by the first rule of
    [_make_serializable] that applies to them.  An object with a
    [model_dump] or [dict] attribute is represented by what the call
    returns: an object on which that call raises (a model class itself,
    for one) is not represented, and neither is an object whose [str()]
    raises or a structure that contains itself.  On those the source
    raises; the properties below are about the objects represented. *)
Inductive value : Type :=
| VNone
| VBool (b : bool)
| VInt (n : Z)
| VFloat (repr : pystr)                 (* a float, by its repr *)
| VStr (s : pystr)
| VModel (dump : value)                 (* has model_dump(): what it returns *)
| VModelV1 (dump : value)               (* has dict() and __fields__ *)
| VDataclass (fields : list (pystr * value))  (* a dataclass instance *)
| VEnum (member : pystr) (val : value)  (* an Enum member and its .value *)
| VSet (items : list value)             (* set, frozenset: iteration order *)
| VDict (items : list (value * value))  (* dict: insertion order *)
| VList (items : list value)
| VTuple (items : list value)
| VBytes (b : list byte)
| VPath (s : pystr)                     (* a PurePath, by its str() *)
| VObject (s : pystr).                  (* any other object, by its str() *)

Fixpoint str_eqb (a b : pystr) : bool :=
  match a, b with
  | [], [] => true
  | x :: a', y :: b' => (x =? y)%N && str_eqb a' b'
  | _, _ => false
  end.

(** [d[k] = v] on a dict whose keys are strings: the value of an
    existing key is replaced where the key stands, a new key is added at
    the end. *)
Fixpoint dict_set (k : pystr) (v : value) (d : list (value * value))
  : list (value * value) :=
  match d with
  | [] => [(VStr k, v)]
  | (k', v') :: r =>
      match k' with
      | VStr s => if str_eqb s k then (k', v) :: r
                  else (k', v') :: dict_set k v r
      | _ => (k', v') :: dict_set k v r
      end
  end.

(** A dict comprehension [{k: v for ...}] with string keys. *)
Definition dict_of (pairs : list (pystr * value)) : list (value * value) :=
  fold_left (fun d kv => dict_set (fst kv) (snd kv) d) pairs [].

(** The JSON document [json.dumps] writes. *)
Inductive json : Type :=
| JNull
| JBool (b : bool)
| JInt (n : Z)
| JFloat (repr : pystr)
| JStr (s : pystr)
| JArr (items : list json)
| JObj (members : list (pystr * json)).

Definition all_some {X : Type} (l : list (option X)) : option (list X) :=
  fold_right (fun o acc =>
                match o, acc with
                | Some x, Some xs => Some (x :: xs)
                | _, _ => None
                end) (Some []) l.

Section Serializer.

(** [a < b] between two objects: [None] stands for [TypeError]. *)
Variable lt : value -> value -> option bool.

(** [str(x)] for the objects whose text the embedding does not carry. *)
Variable str_compound : value -> pystr.

(** [str(x)] *)
Definition py_str (x : value) : pystr :=
  match x with
  | VNone => lit "None"
  | VBool true => lit "True"
  | VBool false => lit "False"
  | VInt n => str_of_int n
  | VFloat r => r
  | VStr s => s
  | VPath s => s
  | VObject s => s
  | _ => str_compound x
  end.

(** [b] is not smaller than [a]. *)
Definition not_after (a b : value) : Prop := lt b a = Some false.

(** Insertion of [x] into an ascending list, comparing keys with [<]:
    [x] goes before the first element it is smaller than.  Together with
    [sorted_on] this stands for the built-in [sorted] where [<] orders
    the elements totally: there the ascending arrangement is unique, so
    every correct sort returns it.  Where [<] is only a partial order
    (floats with NaN, frozensets under inclusion) CPython's [sorted] may
    return another rearrangement of the same elements, and nothing below
    is stated about the order in that case. *)
Fixpoint insert_on {B : Type} (key : B -> value) (x : B) (l : list B)
  : option (list B) :=
  match l with
  | [] => Some [x]
  | y :: r =>
      match lt (key x) (key y) with
      | None => None
      | Some true => Some (x :: l)
      | Some false => option_map (cons y) (insert_on key x r)
      end
  end.

(** [sorted(l, key=key)]: a stable sort that compares with [<] only and
    fails as soon as a comparison does.  The elements are inserted one
    after the other; on a total order the result is the one [sorted]
    returns (see [insert_on]). *)
Definition sorted_on {B : Type} (key : B -> value) (l : list B)
  : option (list B) :=
  fold_left (fun acc x =>
               match acc with
               | Some a => insert_on key x a
               | None => None
               end) l (Some []).

(** [sorted(l)] *)
Definition sorted (l : list value) : option (list value) :=
  sorted_on (fun x => x) l.

(** A key [json.dumps] accepts, as the text it writes for it. *)
Definition json_key (k : value) : option pystr :=
  match k with
  | VStr s => Some s
  | VInt n => Some (str_of_int n)
  | VFloat r => Some r
  | VBool true => Some (lit "true")
  | VBool false => Some (lit "false")
  | VNone => Some (lit "null")
  | _ => None
  end.

(** [json.dumps(x, default=...)], up to the layout of the text: the
    document written, or [None] for [TypeError].  With [default = None]
    an object that JSON has no form for is an error; with [default = str]
    it is written as [str(x)].  A dict key that is not a [str], a number,
    a [bool] or [None] is an error in both cases. *)
Fixpoint json_dumps (default_str : bool) (x : value) : option json :=
  match x with
  | VNone => Some JNull
  | VBool b => Some (JBool b)
  | VInt n => Some (JInt n)
  | VFloat r => Some (JFloat r)
  | VStr s => Some (JStr s)
  | VList items | VTuple items =>
      option_map JArr (all_some (map (json_dumps default_str) items))
  | VDict items =>
      option_map JObj
        (all_some
           (map (fun kv =>
                   match json_key (fst kv), json_dumps default_str (snd kv)
                   with
                   | Some k, Some j => Some (k, j)
                   | _, _ => None
                   end) items))
  | _ => if default_str then Some (JStr (py_str x)) else None
  end.

(** [_make_serializable], on the objects that [value] represents: the
    value returned when every [model_dump()] and [dict()] call made on
    the way returns.  In the set rule the elements are paired with
    their serialized form before they are sorted on the element, so that
    the recursion is on the elements of [obj]; [make_serializable_set]
    below gives the rule as the source writes it. *)
Fixpoint make_serializable (obj : value) : value :=
  match obj with
  | VNone | VStr _ | VInt _ | VFloat _ | VBool _ => obj
  | VModel dump => make_serializable dump
  | VModelV1 dump => make_serializable dump
  | VDataclass fields =>
      VDict (dict_of
               (map (fun f => (fst f, make_serializable (snd f))) fields))
  | VEnum _ val => val
  | VSet items =>
      let pairs := map (fun item => (item, make_serializable item)) items in
      match sorted_on fst pairs with
      | Some l => VList (map snd l)
      | None => VList (map snd pairs)
      end
  | VDict items =>
      VDict (dict_of
               (map (fun kv => (py_str (fst kv), make_serializable (snd kv)))
                    items))
  | VList items | VTuple items => VList (map make_serializable items)
  | VBytes b =>
      match utf8_decode b with
      | Some s => VStr s
      | None => VStr (b64encode b)
      end
  | VPath s => VStr s
  | VObject _ =>
      match json_dumps false obj with
      | Some _ => obj
      | None => VStr (py_str obj)
      end
  end.

(** [safe_json_serialize], up to the layout of the text:
    [json.dumps(_make_serializable(obj), indent=2, default=str)].  The
    message of the [TypeError] is its fixed part; Python adds the name
    of the type of the offending key. *)
Definition safe_json_serialize (obj : value) : outcome json :=
  match json_dumps true (make_serializable obj) with
  | Some j => Returned j
  | None =>
      Raised (Exc TypeError [PyException; PyBaseException]
                  (lit "keys must be str, int, float, bool or None") None)
  end.

End Serializer.

(** A canonical value: null, boolean, number, string, sequence of
    canonical values, mapping from distinct strings to canonical values. *)
Definition is_str (x : value) : bool :=
  match x with VStr _ => true | _ => false end.

(** Is the string [a] a key of the dict? *)
Definition key_in (a : pystr) (d : list (value * value)) : bool :=
  existsb (fun kv => match fst kv with
                     | VStr b => str_eqb a b
                     | _ => false
                     end) d.

(** No string is a key twice. *)
Fixpoint distinct_keys (d : list (value * value)) : bool :=
  match d with
  | [] => true
  | (k, _) :: r =>
      match k with
      | VStr a => negb (key_in a r)
      | _ => true
      end && distinct_keys r
  end.

Fixpoint canonical (x : value) : bool :=
  match x with
  | VNone | VBool _ | VInt _ | VFloat _ | VStr _ => true
  | VList items => forallb canonical items
  | VDict items =>
      forallb (fun kv => is_str (fst kv) && canonical (snd kv)) items
      && distinct_keys items
  | _ => false
  end.

(** The shape of a dict of canonical values under string keys. *)
Definition canonical_dict (d : list (value * value)) : bool :=
  forallb (fun kv => is_str (fst kv) && canonical (snd kv)) d
  && distinct_keys d.

(** Every enum member inside [x] has a canonical value. *)
Fixpoint enums_canonical (x : value) : bool :=
  match x with
  | VModel dump | VModelV1 dump => enums_canonical dump
  | VDataclass fields => forallb (fun f => enums_canonical (snd f)) fields
  | VEnum _ val => canonical val
  | VSet items | VList items | VTuple items => forallb enums_canonical items
  | VDict items => forallb (fun kv => enums_canonical (snd kv)) items
  | _ => true
  end.

(** Induction on objects, through the containers. *)
Section ValueInduction.

Variable P : value -> Prop.
Hypothesis HNone : P VNone.
Hypothesis HBool : forall b, P (VBool b).
Hypothesis HInt : forall n, P (VInt n).
Hypothesis HFloat : forall r, P (VFloat r).
Hypothesis HStr : forall s, P (VStr s).
Hypothesis HModel : forall d, P d -> P (VModel d).
Hypothesis HModelV1 : forall d, P d -> P (VModelV1 d).
Hypothesis HDataclass :
  forall fields, Forall (fun f => P (snd f)) fields -> P (VDataclass fields).
Hypothesis HEnum : forall m v, P v -> P (VEnum m v).
Hypothesis HSet : forall items, Forall P items -> P (VSet items).
Hypothesis HDict :
  forall items, Forall (fun kv => P (fst kv) /\ P (snd kv)) items ->
                P (VDict items).
Hypothesis HList : forall items, Forall P items -> P (VList items).
Hypothesis HTuple : forall items, Forall P items -> P (VTuple items).
Hypothesis HBytes : forall b, P (VBytes b).
Hypothesis HPath : forall s, P (VPath s).
Hypothesis HObject : forall s, P (VObject s).

Fixpoint value_ind_nested (x : value) : P x :=
  let all :=
    fix all (l : list value) : Forall P l :=
      match l with
      | [] => Forall_nil P
      | y :: r => Forall_cons y (value_ind_nested y) (all r)
      end in
  match x with
  | VNone => HNone
  | VBool b => HBool b
  | VInt n => HInt n
  | VFloat r => HFloat r
  | VStr s => HStr s
  | VModel d => HModel d (value_ind_nested d)
  | VModelV1 d => HModelV1 d (value_ind_nested d)
  | VDataclass fields =>
      HDataclass fields
        ((fix go (l : list (pystr * value))
            : Forall (fun f => P (snd f)) l :=
            match l with
            | [] => Forall_nil _
            | f :: r => Forall_cons f (value_ind_nested (snd f)) (go r)
            end) fields)
  | VEnum m v => HEnum m v (value_ind_nested v)
  | VSet items => HSet items (all items)
  | VDict items =>
      HDict items
        ((fix go (l : list (value * value))
            : Forall (fun kv => P (fst kv) /\ P (snd kv)) l :=
            match l with
            | [] => Forall_nil _
            | kv :: r =>
                Forall_cons kv
                  (conj (value_ind_nested (fst kv))
                        (value_ind_nested (snd kv))) (go r)
            end) items)
  | VList items => HList items (all items)
  | VTuple items => HTuple items (all items)
  | VBytes b => HBytes b
  | VPath s => HPath s
  | VObject s => HObject s
  end.

End ValueInduction.

(** Comparison of the built-in scalars, for the examples: numbers
    ([bool] counts as [int]) among themselves, strings among themselves,
    bytes among themselves; any other pair is unorderable. *)
Fixpoint lex_lt (a b : list N) : bool :=
  match a, b with
  | _, [] => false
  | [], _ :: _ => true
  | x :: a', y :: b' => (x <? y)%N || ((x =? y)%N && lex_lt a' b')
  end.

Definition int_of (x : value) : option Z :=
  match x with
  | VInt n => Some n
  | VBool true => Some 1%Z
  | VBool false => Some 0%Z
  | _ => None
  end.

Definition lt_scalar (a b : value) : option bool :=
  match int_of a, int_of b with
  | Some m, Some n => Some (m <? n)%Z
  | _, _ =>
      match a, b with
      | VStr s, VStr t => Some (lex_lt s t)
      | VBytes s, VBytes t =>
          Some (lex_lt (map Byte.to_N s) (map Byte.to_N t))
      | _, _ => None
      end
  end.

(** A stand-in for [str()] of compound objects, for the examples. *)
Definition str_opaque (x : value) : pystr := lit "<object>".


(* ================================================================= *)
(** ** tools: the decorated tools *)

(** Truth value of a [list | None] argument: [None] and the empty list
    are false. *)
Definition list_truthy {X : Type} (l : option (list X)) : bool :=
  match l with
  | Some (_ :: _) => true
  | _ => false
  end.

(** [x is not None] *)
Definition not_none {X : Type} (x : option X) : bool :=
  match x with
  | Some _ => true
  | None => false
  end.

(** [sum(flags)] for a list of [bool]. *)
Fixpoint sum_bools (flags : list bool) : Z :=
  match flags with
  | [] => 0
  | b :: r => ((if b then 1 else 0) + sum_bools r)%Z
  end.

(** [sep.join(l)] *)
Fixpoint join (sep : pystr) (l : list pystr) : pystr :=
  match l with
  | [] => []
  | [x] => x
  | x :: r => x ++ sep ++ join sep r
  end.

(** [d.get(k)] on a dict, for a string [k]. *)
Fixpoint dict_get (k : pystr) (d : list (value * value)) : option value :=
  match d with
  | [] => None
  | (k', v) :: r =>
      match k' with
      | VStr s => if str_eqb s k then Some v else dict_get k r
      | _ => dict_get k r
      end
  end.

(** The value that the last of the pairs under key [k] holds. *)
Definition last_value (k : pystr) (pairs : list (pystr * value))
  : option value :=
  fold_left (fun acc kv => if str_eqb (fst kv) k then Some (snd kv) else acc)
            pairs None.

(** The entry points of the SDK that the tools below call, each as the
    computation it stands for, and the members of the SDK's [UpdateMode]
    enum, each with its name and its value. *)
Record sky_api : Type :=
  { sky_cancel :
      pystr -> bool -> bool -> option (list Z) -> prog pystr;
    sky_serve_down :
      option (list pystr) -> bool -> bool -> prog pystr;
    sky_jobs_pool_down :
      option (list pystr) -> bool -> bool -> prog pystr;
    sky_jobs_cancel :
      option pystr -> option (list Z) -> bool -> bool -> option pystr ->
      bool -> option Z -> prog pystr;
    sky_validate : sky_object -> bool -> prog unit;
    sky_serve_update :
      sky_object -> pystr -> pystr * pystr -> prog pystr;
    sky_jobs_pool_apply :
      option sky_object -> pystr -> pystr * pystr -> option Z ->
      prog pystr;
    UpdateMode : list (pystr * pystr) }.

(** [json.dumps] of a [str | None]. *)
Definition json_opt_str (s : option pystr) : json :=
  match s with
  | Some t => JStr t
  | None => JNull
  end.

Section Tools.

Variable api : sky_api.

(** [repr()] of a [str]. *)
Variable repr : pystr -> pystr.

(** helpers.py: [_parse_update_mode].  [UpdateMode(value)] is the member
    whose value is [value]; when there is none the [ValueError] is
    replaced by one that lists the values. *)
Definition parse_update_mode (value : pystr) : prog (pystr * pystr) :=
  match find (fun m => str_eqb (snd m) value) (UpdateMode api) with
  | Some m => Ret m
  | None =>
      Raise (new_ValueError
               (lit "Invalid update mode: " ++ repr value
                ++ lit ". Must be one of: "
                ++ join (lit ", ") (map snd (UpdateMode api)) ++ lit "."))
  end.

(** tools/jobs.py: [skypilot_job_logs] *)
Definition skypilot_job_logs
  (cluster_name : pystr) (job_id : option Z) (tail : Z) : prog pystr :=
  handle_skypilot_error
    (fun _ : unit => capture_cluster_logs repr cluster_name job_id tail) tt.

(** tools/managed_jobs.py: [skypilot_managed_job_logs] *)
Definition skypilot_managed_job_logs
  (name : option pystr) (job_id : option Z) (controller refresh : bool)
  (task : option (pystr + Z)) (tail : Z) : prog pystr :=
  handle_skypilot_error
    (fun _ : unit =>
       capture_managed_job_logs name job_id controller refresh task tail) tt.

(** tools/jobs.py: [skypilot_job_cancel] *)
Definition skypilot_job_cancel
  (cluster_name : pystr) (job_ids : option (list Z))
  (cancel_all all_users : bool) : prog json :=
  handle_skypilot_error
    (fun _ : unit =>
       if cancel_all && list_truthy job_ids then
         Raise (new_ValueError
                  (lit "Specify either job_ids or cancel_all=True, not both."))
       else if negb cancel_all && negb (list_truthy job_ids) then
         Raise (new_ValueError (lit "Specify job_ids or set cancel_all=True."))
       else
         request_id <- sky_cancel api cluster_name cancel_all all_users
                                  job_ids ;;
         Ret (JObj [(lit "request_id", JStr request_id);
                    (lit "cluster_name", JStr cluster_name);
                    (lit "message", JStr (lit "Cancel request submitted."))]))
    tt.

(** tools/serve.py: [skypilot_serve_down] *)
Definition skypilot_serve_down
  (service_names : option (list pystr)) (delete_all purge : bool)
  : prog json :=
  handle_skypilot_error
    (fun _ : unit =>
       if negb (list_truthy service_names) && negb delete_all then
         Raise (new_ValueError
                  (lit "Specify service_names or set delete_all=True."))
       else if list_truthy service_names && delete_all then
         Raise (new_ValueError
                  (lit "Specify service_names or delete_all=True, not both."))
       else
         request_id <- sky_serve_down api service_names delete_all purge ;;
         Ret (JObj [(lit "request_id", JStr request_id);
                    (lit "message",
                     JStr (lit "Service down request submitted."))]))
    tt.

(** tools/pools.py: [skypilot_pool_down] *)
Definition skypilot_pool_down
  (pool_names : option (list pystr)) (delete_all purge : bool)
  : prog json :=
  handle_skypilot_error
    (fun _ : unit =>
       if negb (list_truthy pool_names) && negb delete_all then
         Raise (new_ValueError
                  (lit "Specify pool_names or set delete_all=True."))
       else if list_truthy pool_names && delete_all then
         Raise (new_ValueError
                  (lit "Specify pool_names or delete_all=True, not both."))
       else
         request_id <- sky_jobs_pool_down api pool_names delete_all purge ;;
         Ret (JObj [(lit "request_id", JStr request_id);
                    (lit "message",
                     JStr (lit "Pool down request submitted."))]))
    tt.

(** tools/managed_jobs.py: [skypilot_managed_job_cancel] *)
Definition skypilot_managed_job_cancel
  (name : option pystr) (job_ids : option (list Z))
  (cancel_all all_users : bool) (pool : option pystr)
  (graceful : bool) (graceful_timeout : option Z) : prog json :=
  handle_skypilot_error
    (fun _ : unit =>
       let specifiers :=
         [not_none name; not_none job_ids; cancel_all; not_none pool] in
       if negb (sum_bools specifiers =? 1)%Z then
         Raise (new_ValueError
                  (lit "Specify exactly one of: name, job_ids, cancel_all=True, or pool."))
       else
         request_id <- sky_jobs_cancel api name job_ids cancel_all all_users
                                       pool graceful graceful_timeout ;;
         Ret (JObj [(lit "request_id", JStr request_id);
                    (lit "message",
                     JStr (lit "Managed job cancel request submitted."))]))
    tt.

(** tools/dag.py: [skypilot_validate] *)
Definition skypilot_validate (task_yaml : option pystr) (workdir_only : bool)
  : prog json :=
  handle_skypilot_error
    (fun _ : unit =>
       dag <- load_dag_from_yaml task_yaml ;;
       _ <- sky_validate api dag workdir_only ;;
       Ret (JObj [(lit "status", JStr (lit "valid"));
                  (lit "message", JStr (lit "Task validation passed."))]))
    tt.

(** tools/serve.py: [skypilot_serve_update] *)
Definition skypilot_serve_update
  (task_yaml : option pystr) (service_name mode : pystr) : prog json :=
  handle_skypilot_error
    (fun _ : unit =>
       update_mode <- parse_update_mode mode ;;
       dag <- load_dag_from_yaml task_yaml ;;
       request_id <- sky_serve_update api dag service_name update_mode ;;
       Ret (JObj [(lit "request_id", JStr request_id);
                  (lit "service_name", JStr service_name);
                  (lit "message", JStr (lit "Service update submitted."))]))
    tt.

(** tools/pools.py: [skypilot_pool_apply];
    [load_dag_from_yaml(task_yaml) if task_yaml else None]. *)
Definition skypilot_pool_apply
  (pool_name : pystr) (task_yaml : option pystr) (mode : pystr)
  (workers : option Z) : prog json :=
  handle_skypilot_error
    (fun _ : unit =>
       update_mode <- parse_update_mode mode ;;
       dag <- (match task_yaml with
               | Some (_ :: _) =>
                   d <- load_dag_from_yaml task_yaml ;; Ret (Some d)
               | _ => Ret None
               end) ;;
       request_id <- sky_jobs_pool_apply api dag pool_name update_mode
                                         workers ;;
       Ret (JObj [(lit "request_id", JStr request_id);
                  (lit "pool_name", JStr pool_name);
                  (lit "message", JStr (lit "Pool apply request submitted."))]))
    tt.

End Tools.

(** tools/managed_jobs.py: [skypilot_managed_job_queue], from the
    resolved result to the object handed to [safe_json_serialize]. *)
Definition managed_job_queue_payload (result : value) : value :=
  match result with
  | VList (records :: total_count :: status_counts :: filtered_count :: _)
  | VTuple (records :: total_count :: status_counts :: filtered_count :: _) =>
      VDict [(VStr (lit "jobs"), records);
             (VStr (lit "total_count"), total_count);
             (VStr (lit "status_counts"), status_counts);
             (VStr (lit "filtered_count"), filtered_count)]
  | _ => result
  end.

(** tools/infra.py: [skypilot_status_kubernetes], from the resolved
    result to the object handed to [safe_json_serialize]. *)
Definition status_kubernetes_payload (result : value) : value :=
  match result with
  | VList (clusters :: other_clusters :: managed_jobs :: context :: _)
  | VTuple (clusters :: other_clusters :: managed_jobs :: context :: _) =>
      VDict [(VStr (lit "clusters"), clusters);
             (VStr (lit "other_clusters"), other_clusters);
             (VStr (lit "managed_jobs"), managed_jobs);
             (VStr (lit "context"), context)]
  | _ => result
  end.

(** What the decorator makes of an outcome. *)
Definition decorated {A : Type} (o : outcome A) : outcome A :=
  match o with
  | Returned a => Returned a
  | Raised e => Raised (surfaced e)
  end.

(** tools/api_server.py: [skypilot_get_request], with the time at which
    it is left: [resolve_request(request_id)], then
    [safe_json_serialize], under the decorator. *)
Definition skypilot_get_request
  (lt : value -> value -> option bool) (str_compound : value -> pystr)
  (sky_get : pystr -> fetch value) (futures_TimeoutError : exc_class)
  (request_id : pystr) : option (Z * outcome json) :=
  match resolve_request sky_get futures_TimeoutError request_id None with
  | None => None
  | Some (t, Returned result) =>
      Some (t, decorated (safe_json_serialize lt str_compound result))
  | Some (t, Raised e) => Some (t, decorated (Raised e))
  end.

(** The [timeout] that [skypilot_get_request] is registered with. *)
Definition GET_REQUEST_TOOL_TIMEOUT : Z := 600.

(** An SDK for the examples: every entry point returns at once, the
    request id [req-1] where it returns one; [UpdateMode] has the members
    the repository's tests name. *)
Definition api_example : sky_api :=
  {| sky_cancel := fun _ _ _ _ => Ret (lit "req-1");
     sky_serve_down := fun _ _ _ => Ret (lit "req-1");
     sky_jobs_pool_down := fun _ _ _ => Ret (lit "req-1");
     sky_jobs_cancel := fun _ _ _ _ _ _ _ => Ret (lit "req-1");
     sky_validate := fun _ _ => Ret tt;
     sky_serve_update := fun _ _ _ => Ret (lit "req-1");
     sky_jobs_pool_apply := fun _ _ _ _ => Ret (lit "req-1");
     UpdateMode := [(lit "ROLLING", lit "rolling");
                    (lit "BLUE_GREEN", lit "blue_green")] |}.

(* ################################################################# *)
(** * Properties *)

Arguments lit : simpl never.

(* ================================================================= *)
(** ** Blank input to the YAML entry points *)

Lemma lstrip_nil_iff (s : pystr) :
  lstrip s = [] <-> forallb is_space s = true.
Proof.
  induction s as [|c r IH]; simpl.
  - tauto.
  - destruct (is_space c); simpl.
    + exact IH.
    + split; discriminate.
Qed.

Lemma lstrip_head (s : pystr) (c : N) (r : pystr) :
  lstrip s = c :: r -> is_space c = false.
Proof.
  induction s as [|d t IH]; simpl.
  - discriminate.
  - destruct (is_space d) eqn:Hd.
    + exact IH.
    + intros [= -> _]. exact Hd.
Qed.

Lemma forallb_rev {X : Type} (f : X -> bool) (l : list X) :
  forallb f (rev l) = forallb f l.
Proof.
  induction l as [|x r IH]; simpl.
  - reflexivity.
  - rewrite forallb_app, IH. simpl. rewrite andb_true_r. apply andb_comm.
Qed.

Lemma lstrip_all_space (s : pystr) :
  forallb is_space (lstrip s) = true -> lstrip s = [].
Proof.
  destruct (lstrip s) as [|c r] eqn:E.
  - reflexivity.
  - apply lstrip_head in E. simpl. rewrite E. discriminate.
Qed.

(** [s.strip()] is empty exactly when [s] holds whitespace only. *)
Lemma strip_nil_iff (s : pystr) :
  strip s = [] <-> forallb is_space s = true.
Proof.
  unfold strip, rstrip. split.
  - intros H.
    assert (Hr : lstrip (rev (lstrip s)) = []).
    { apply (f_equal (@rev N)) in H. rewrite rev_involutive in H. exact H. }
    apply lstrip_nil_iff in Hr. rewrite forallb_rev in Hr.
    apply lstrip_all_space in Hr. apply lstrip_nil_iff. exact Hr.
  - intros H. apply lstrip_nil_iff in H. rewrite H. reflexivity.
Qed.

Lemma blank_test (s : pystr) :
  negb (truthy s) || negb (truthy (strip s)) = forallb is_space s.
Proof.
  destruct (forallb is_space s) eqn:E.
  - apply strip_nil_iff in E. rewrite E. simpl. apply orb_true_r.
  - destruct s as [|c r]; [discriminate E|]. simpl truthy. simpl negb.
    destruct (strip (c :: r)) eqn:Es.
    + apply strip_nil_iff in Es. congruence.
    + reflexivity.
Qed.

(** C9.  A string that is empty or holds whitespace only makes
    [create_task_from_yaml] and [load_dag_from_yaml] raise [ValueError]
    without any call to the SDK; whenever one of them does call the SDK,
    the string holds a character that is not whitespace, and the call is
    the parser applied to that string. *)
Theorem yaml_entry_points_reject_blank
  (s : pystr) (Hblank : forallb is_space s = true) :
  (create_task_from_yaml (Some s)
   = Raise (new_ValueError (lit "task_yaml must be a non-empty YAML string."))
   /\ load_dag_from_yaml (Some s)
      = Raise (new_ValueError
                 (lit "task_yaml must be a non-empty YAML string.")))
  /\ (forall k : sdk,
         calls k (create_task_from_yaml (Some s)) = []
         /\ calls k (load_dag_from_yaml (Some s)) = [])
  /\ (forall (k : sdk) (t : pystr),
         (calls k (create_task_from_yaml (Some t)) <> []
          \/ calls k (load_dag_from_yaml (Some t)) <> []) ->
         existsb (fun c => negb (is_space c)) t = true
         /\ calls k (create_task_from_yaml (Some t)) = [Task_from_yaml_str t]
         /\ calls k (load_dag_from_yaml (Some t))
            = [Load_chain_dag_from_yaml_str t]).
Proof.
  assert (Hs : create_task_from_yaml (Some s)
               = Raise (new_ValueError
                          (lit "task_yaml must be a non-empty YAML string."))
               /\ load_dag_from_yaml (Some s)
                  = Raise (new_ValueError
                             (lit "task_yaml must be a non-empty YAML string."))).
  { unfold create_task_from_yaml, load_dag_from_yaml.
    rewrite blank_test, Hblank. split; reflexivity. }
  split; [exact Hs|]. split.
  - intros k. destruct Hs as [-> ->]. split; reflexivity.
  - intros k t Hcall.
    unfold create_task_from_yaml, load_dag_from_yaml in *.
    rewrite blank_test in *.
    destruct (forallb is_space t) eqn:Et.
    + destruct Hcall as [Hc | Hc]; exfalso; apply Hc; reflexivity.
    + split.
      * clear Hcall. induction t as [|c r IH]; simpl in *.
        -- discriminate.
        -- destruct (is_space c); simpl in *; [apply IH; exact Et | reflexivity].
      * unfold calls, call. simpl.
        destruct (k (Task_from_yaml_str t));
          destruct (k (Load_chain_dag_from_yaml_str t)); split; reflexivity.
Qed.

Lemma yaml_entry_points_reject_blank_witness :
  create_task_from_yaml (Some (lit "   "))
  = Raise (new_ValueError (lit "task_yaml must be a non-empty YAML string.")).
Proof.
  apply (yaml_entry_points_reject_blank (lit "   ")). reflexivity.
Defined.

(* ================================================================= *)
(** ** Log capture *)

Lemma sdk_tail_zero : sdk_tail 0 = None.
Proof. reflexivity. Qed.

Lemma sdk_tail_nonzero (tail : Z) : tail <> 0%Z -> sdk_tail tail = Some tail.
Proof.
  intros H. unfold sdk_tail. destruct (Z.eqb_spec tail 0); [contradiction|].
  reflexivity.
Qed.

(** C5, as the claim states it, fails for [capture_cluster_logs]:
    with [tail = 0] the SDK's [tail_logs] is called with [0], not with
    [None]. *)
Lemma capture_cluster_logs_passes_zero :
  calls (sdk_replying {| written := []; exit_code := Some 0%Z |})
        (capture_cluster_logs repr_plain (lit "c") None 0)
  = [Tail_logs (lit "c") None false (Some 0%Z)]
  /\ map tail_arg
         (calls (sdk_replying {| written := []; exit_code := Some 0%Z |})
                (capture_cluster_logs repr_plain (lit "c") None 0))
     <> [Some None].
Proof. split; [reflexivity | discriminate]. Qed.

(** C5, amended.  [capture_managed_job_logs], [capture_serve_logs] and
    [capture_pool_logs] make one SDK call, with [follow = False], whose
    [tail] is [None] when the adapter's [tail] is 0 and the adapter's
    [tail] unchanged otherwise; [capture_cluster_logs] makes one call,
    with [follow = False], whose [tail] is the adapter's [tail] unchanged,
    0 included. *)
Theorem capture_tail_argument
  (repr : pystr -> pystr) (k : sdk) (tail : Z)
  (name : option pystr) (job_id : option Z) (controller refresh : bool)
  (task : option (pystr + Z)) (target_name target : pystr)
  (sub_id : option Z) :
  calls k (capture_managed_job_logs name job_id controller refresh task tail)
  = [Jobs_tail_logs name job_id false controller refresh task
                    (if (tail =? 0)%Z then None else Some tail)]
  /\ calls k (capture_serve_logs target_name target sub_id tail)
     = [Serve_tail_logs target_name target sub_id false
                        (if (tail =? 0)%Z then None else Some tail)]
  /\ calls k (capture_pool_logs target_name target sub_id tail)
     = [Jobs_pool_tail_logs target_name target sub_id false
                            (if (tail =? 0)%Z then None else Some tail)]
  /\ calls k (capture_cluster_logs repr target_name job_id tail)
     = [Tail_logs target_name job_id false (Some tail)].
Proof.
  unfold calls, capture_managed_job_logs, capture_serve_logs,
    capture_pool_logs, capture_cluster_logs, call, sdk_tail.
  repeat split; simpl.
  - destruct (k (Jobs_tail_logs _ _ _ _ _ _ _)) as [r|e]; simpl;
      [destruct (exit_truthy (exit_code r))|]; reflexivity.
  - destruct (k (Serve_tail_logs _ _ _ _ _)); reflexivity.
  - destruct (k (Jobs_pool_tail_logs _ _ _ _ _)); reflexivity.
  - destruct (k (Tail_logs _ _ _ _)) as [r|e]; simpl;
      [destruct (exit_truthy (exit_code r))|]; reflexivity.
Qed.

(* ================================================================= *)
(** ** The error translator *)

(** Every clause of [wrapper] raises. *)
Lemma translate_raises {A : Type} (e : exc) :
  @translate A e = Raise (surfaced e).
Proof.
  unfold surfaced, translate. split_isinstance; reflexivity.
Qed.

Lemma isinstance_new_ToolError (msg : pystr) (e : exc) :
  isinstance (new_ToolError_from msg e) ToolError = true.
Proof. reflexivity. Qed.

(** What [wrapper] raises is a [ToolError], unless the failure is not an
    [Exception] at all, and then it is the failure itself. *)
Lemma surfaced_cases (e : exc) :
  isinstance (surfaced e) ToolError = true
  \/ (surfaced e = e /\ isinstance e ToolError = false).
Proof.
  unfold surfaced, translate.
  destruct (isinstance e ToolError) eqn:Ht; [left; exact Ht|].
  split_isinstance;
    try (left; apply isinstance_new_ToolError).
  right. split; reflexivity.
Qed.

Lemma surfaced_ToolError (e : exc) :
  isinstance e ToolError = true -> surfaced e = e.
Proof.
  intros H. unfold surfaced, translate. rewrite H. reflexivity.
Qed.

Lemma surfaced_idempotent (e : exc) : surfaced (surfaced e) = surfaced e.
Proof.
  destruct (surfaced_cases e) as [H | [H _]].
  - apply surfaced_ToolError. exact H.
  - rewrite H. exact H.
Qed.

(** Running a decorated function: the same calls, and the failure, if
    any, replaced by the one [wrapper] raises for it. *)
Lemma run_handle_skypilot_error {A : Type} (k : sdk) (p : prog A) :
  run k (catch p translate)
  = (fst (run k p),
     match snd (run k p) with
     | Returned a => Returned a
     | Raised e => Raised (surfaced e)
     end).
Proof.
  induction p as [a | e | c kont IH]; simpl.
  - reflexivity.
  - rewrite translate_raises. reflexivity.
  - rewrite IH. destruct (run k (kont (k c))). reflexivity.
Qed.

Lemma first_match_row (e : exc) (row : exc_class * (pystr * pystr)) :
  isinstance e ToolError = false ->
  first_match translation_table e = Some row ->
  surfaced e
  = new_ToolError_from (fst (snd row) ++ exc_str e ++ snd (snd row)) e.
Proof.
  intros Ht. unfold first_match, translation_table, surfaced, translate.
  rewrite Ht. cbn [find fst snd].
  repeat match goal with
         | |- context [if isinstance e ?c then _ else _] =>
             let H := fresh "Hi" in
             destruct (isinstance e c) eqn:H;
             [ intros [= <-]; cbn [fst snd]; rewrite ?app_nil_r; reflexivity
             | ]
         end.
  discriminate.
Qed.

Lemma first_match_none (e : exc) :
  isinstance e ToolError = false ->
  first_match translation_table e = None ->
  surfaced e
  = (if isinstance e PyException
     then new_ToolError_from
            (class_name (exc_type e) ++ lit ": " ++ exc_str e) e
     else e).
Proof.
  intros Ht. unfold first_match, translation_table, surfaced, translate.
  rewrite Ht. cbn [find fst snd].
  repeat match goal with
         | |- context [if isinstance e ?c then _ else _] =>
             let H := fresh "Hi" in
             destruct (isinstance e c) eqn:H; [discriminate|]
         end.
  destruct (isinstance e PyException); reflexivity.
Qed.

(** C1, as the claim states it, fails for the first row of the table:
    the message for an authentication failure is not the prefix followed
    by the original message, since the remediation hint follows. *)
Lemma authentication_message_counterexample :
  result (sdk_replying {| written := []; exit_code := None |})
         (handle_skypilot_error
            (fun _ : unit =>
               @Raise unit
                 (Exc ApiServerAuthenticationError
                      [RuntimeError; PyException; PyBaseException]
                      (lit "bad token") None)) tt)
  = Raised
      (new_ToolError_from
         (lit "Authentication required: bad token. Use skypilot_api_login to authenticate.")
         (Exc ApiServerAuthenticationError
              [RuntimeError; PyException; PyBaseException]
              (lit "bad token") None))
  /\ lit "Authentication required: bad token. Use skypilot_api_login to authenticate."
     <> lit "Authentication required: " ++ lit "bad token".
Proof. split; [reflexivity | vm_compute; discriminate]. Qed.

(** C1, amended.  When a decorated function raises a failure [e] that
    is not a [ToolError], the decorated call makes the same SDK calls and
    raises a [ToolError] caused by [e]: if [e] is an instance of a kind of
    the table, the message is the prefix of the first such row, then
    [str(e)], then the row's suffix, which is empty for every row but
    "authentication required", whose suffix is the remediation hint; if
    [e] is an instance of no kind of the table and is an [Exception], the
    message is the name of its class, a colon and a space, then
    [str(e)]. *)
Theorem translated_message
  {Args A : Type} (func : Args -> prog A) (args : Args) (k : sdk)
  (cs : list sdk_call) (e : exc)
  (Hraises : run k (func args) = (cs, Raised e))
  (Hnew : isinstance e ToolError = false) :
  (forall row,
      first_match translation_table e = Some row ->
      run k (handle_skypilot_error func args)
      = (cs, Raised (new_ToolError_from
                       (fst (snd row) ++ exc_str e ++ snd (snd row)) e)))
  /\ (first_match translation_table e = None ->
      isinstance e PyException = true ->
      run k (handle_skypilot_error func args)
      = (cs, Raised (new_ToolError_from
                       (class_name (exc_type e) ++ lit ": " ++ exc_str e)
                       e)))
  /\ (forall row,
         In row translation_table ->
         snd (snd row)
         = (if class_eqb (fst row) ApiServerAuthenticationError
            then lit ". Use skypilot_api_login to authenticate."
            else [])).
Proof.
  unfold handle_skypilot_error.
  rewrite run_handle_skypilot_error, Hraises. cbn [fst snd].
  split; [|split].
  - intros row Hrow. rewrite (first_match_row e row Hnew Hrow). reflexivity.
  - intros Hnone Hexc. rewrite (first_match_none e Hnew Hnone), Hexc.
    reflexivity.
  - intros row Hin. unfold translation_table in Hin. cbn [In] in Hin.
    repeat (destruct Hin as [<- | Hin]; [reflexivity|]). contradiction.
Qed.

Lemma translated_message_witness :
  run (sdk_replying {| written := []; exit_code := None |})
      (handle_skypilot_error
         (fun _ : unit =>
            @Raise unit (Exc ResourcesUnavailableError
                             [PyException; PyBaseException]
                             (lit "no A100s") None)) tt)
  = ([], Raised (new_ToolError_from
                   (lit "Resources unavailable: no A100s")
                   (Exc ResourcesUnavailableError
                        [PyException; PyBaseException]
                        (lit "no A100s") None))).
Proof.
  apply (proj1 (translated_message
                  (fun _ : unit =>
                     @Raise unit (Exc ResourcesUnavailableError
                                      [PyException; PyBaseException]
                                      (lit "no A100s") None))
                  tt (sdk_replying {| written := []; exit_code := None |})
                  [] _ eq_refl eq_refl)
               (ResourcesUnavailableError,
                (lit "Resources unavailable: ", []))).
  reflexivity.
Defined.

(** C2.  When a decorated function raises a failure that is already a
    [ToolError], the decorated call makes the same SDK calls and raises
    that very failure: same class, same message, same cause.  Decorating
    twice is decorating once: for every function, collaborator and
    argument, the calls made and the outcome are the same. *)
Theorem tool_error_passes_through
  {Args A : Type} (func : Args -> prog A) (args : Args) (k : sdk)
  (cs : list sdk_call) (e : exc)
  (Hraises : run k (func args) = (cs, Raised e))
  (Htool : isinstance e ToolError = true) :
  run k (handle_skypilot_error func args) = (cs, Raised e)
  /\ (forall (B C : Type) (g : B -> prog C) (b : B) (k' : sdk),
         run k' (handle_skypilot_error (handle_skypilot_error g) b)
         = run k' (handle_skypilot_error g b)).
Proof.
  unfold handle_skypilot_error. split.
  - rewrite run_handle_skypilot_error, Hraises. cbn [fst snd].
    rewrite (surfaced_ToolError e Htool). reflexivity.
  - intros B C g b k'. rewrite !run_handle_skypilot_error. cbn [fst snd].
    destruct (snd (run k' (g b))); [reflexivity|].
    rewrite surfaced_idempotent. reflexivity.
Qed.

Lemma tool_error_passes_through_witness :
  run (sdk_replying {| written := []; exit_code := None |})
      (handle_skypilot_error
         (fun _ : unit =>
            @Raise unit
              (Exc ToolError
                   [OtherClass "FastMCPError"; PyException; PyBaseException]
                   (lit "already handled") None)) tt)
  = ([], Raised
           (Exc ToolError
                [OtherClass "FastMCPError"; PyException; PyBaseException]
                (lit "already handled") None)).
Proof.
  apply (tool_error_passes_through
           (fun _ : unit =>
              @Raise unit
                (Exc ToolError
                     [OtherClass "FastMCPError"; PyException; PyBaseException]
                     (lit "already handled") None))
           tt (sdk_replying {| written := []; exit_code := None |})
           [] _ eq_refl eq_refl).
Defined.

(* ================================================================= *)
(** ** Log capture: exit codes *)

(** C6, as the claim states it, fails: when [sky.tail_logs] writes to
    the buffer and returns exit code 1, the failure that
    [capture_cluster_logs] raises names the cluster and the exit code but
    does not hold the captured output. *)
Lemma capture_nonzero_exit_counterexample :
  exists msg,
    result (sdk_replying {| written := lit "boom"; exit_code := Some 1%Z |})
           (capture_cluster_logs repr_plain (lit "c") None 100)
    = Raised (new_RuntimeError msg)
    /\ contains (lit "'c'") msg = true
    /\ contains (lit "exit code 1") msg = true
    /\ contains (lit "boom") msg = false.
Proof.
  eexists. split; [reflexivity|]. repeat split; vm_compute; reflexivity.
Qed.

(** C6, amended.  Each adapter depends on the answer to its own SDK
    call only.  When [sky.tail_logs] answers with a non-zero exit code,
    [capture_cluster_logs] raises a [RuntimeError] whose message names
    the cluster and the exit code, without the captured output, and
    likewise [capture_managed_job_logs] with the job's name or id for
    [sky.jobs.tail_logs]; with exit code 0 or [None] they return the
    captured text.  The decorated tool [skypilot_tail_autostop_logs]
    raises, on a non-zero exit code, a [ToolError] whose message is
    ["RuntimeError: "] followed by a message that names the cluster and
    the exit code and, when some output was captured, ends with that
    output; otherwise it returns the captured text.
    [capture_serve_logs] and [capture_pool_logs] return the captured text
    whatever their SDK call returns. *)
Theorem capture_exit_code (repr : pystr -> pystr) (k : sdk) :
  (forall cluster_name job_id tail r,
      k (Tail_logs cluster_name job_id false (Some tail)) = Returned r ->
      result k (capture_cluster_logs repr cluster_name job_id tail)
      = (if exit_truthy (exit_code r) then
           Raised (new_RuntimeError
                     (lit "Failed to retrieve logs for cluster "
                      ++ repr cluster_name ++ lit " (job_id="
                      ++ str_of_opt_int job_id
                      ++ lit "): tail_logs returned exit code "
                      ++ str_of_opt_int (exit_code r) ++ lit "."))
         else Returned (written r)))
  /\ (forall name job_id controller refresh task tail r,
         k (Jobs_tail_logs name job_id false controller refresh task
                           (sdk_tail tail)) = Returned r ->
         result k (capture_managed_job_logs name job_id controller refresh
                                            task tail)
         = (if exit_truthy (exit_code r) then
              Raised (new_RuntimeError
                        (lit "Failed to retrieve managed job logs ("
                         ++ managed_job_identifier name job_id
                         ++ lit "): tail_logs returned exit code "
                         ++ str_of_opt_int (exit_code r) ++ lit "."))
            else Returned (written r)))
  /\ (forall cluster_name tail r,
         k (Tail_autostop_logs cluster_name false (Some tail)) = Returned r ->
         result k (skypilot_tail_autostop_logs repr (cluster_name, tail))
         = (if exit_truthy (exit_code r) then
              Raised
                (new_ToolError_from
                   (lit "RuntimeError: "
                    ++ lit "Failed to retrieve autostop logs for cluster "
                    ++ repr cluster_name ++ lit ": exit code "
                    ++ str_of_opt_int (exit_code r) ++ lit "."
                    ++ (if truthy (written r)
                        then [10%N] ++ lit "Output: " ++ written r
                        else []))
                   (new_RuntimeError
                      (lit "Failed to retrieve autostop logs for cluster "
                       ++ repr cluster_name ++ lit ": exit code "
                       ++ str_of_opt_int (exit_code r) ++ lit "."
                       ++ (if truthy (written r)
                           then [10%N] ++ lit "Output: " ++ written r
                           else []))))
            else Returned (written r)))
  /\ (forall service_name target replica_id tail r,
         k (Serve_tail_logs service_name target replica_id false
                            (sdk_tail tail)) = Returned r ->
         result k (capture_serve_logs service_name target replica_id tail)
         = Returned (written r))
  /\ (forall pool_name target worker_id tail r,
         k (Jobs_pool_tail_logs pool_name target worker_id false
                                (sdk_tail tail)) = Returned r ->
         result k (capture_pool_logs pool_name target worker_id tail)
         = Returned (written r)).
Proof.
  unfold result. repeat split.
  - intros cluster_name job_id tail r H.
    unfold capture_cluster_logs, call. cbn [bind run]. rewrite H.
    cbn [bind]. destruct (exit_truthy (exit_code r)); reflexivity.
  - intros name job_id controller refresh task tail r H.
    unfold capture_managed_job_logs, call. cbn [bind run]. rewrite H.
    cbn [bind]. destruct (exit_truthy (exit_code r)); reflexivity.
  - intros cluster_name tail r H.
    unfold skypilot_tail_autostop_logs, handle_skypilot_error.
    rewrite run_handle_skypilot_error.
    unfold tail_autostop_logs_body, call. cbn [bind run fst snd].
    rewrite H. cbn [bind].
    destruct (exit_truthy (exit_code r)); reflexivity.
  - intros service_name target replica_id tail r H.
    unfold capture_serve_logs, call. cbn [bind run]. rewrite H. reflexivity.
  - intros pool_name target worker_id tail r H.
    unfold capture_pool_logs, call. cbn [bind run]. rewrite H. reflexivity.
Qed.

Lemma capture_exit_code_witness :
  result (sdk_replying {| written := lit "boom"; exit_code := Some 2%Z |})
         (capture_managed_job_logs (Some (lit "my-job")) None false false
                                   None 100)
  = Raised (new_RuntimeError
              (lit "Failed to retrieve managed job logs (my-job): tail_logs returned exit code 2."))
  /\ result (sdk_replying {| written := lit "boom"; exit_code := Some 2%Z |})
            (skypilot_tail_autostop_logs repr_plain (lit "c1", 100%Z))
     = Raised
         (new_ToolError_from
            (lit "RuntimeError: Failed to retrieve autostop logs for cluster 'c1': exit code 2."
             ++ [10%N] ++ lit "Output: boom")
            (new_RuntimeError
               (lit "Failed to retrieve autostop logs for cluster 'c1': exit code 2."
                ++ [10%N] ++ lit "Output: boom"))).
Proof.
  destruct (capture_exit_code
              repr_plain
              (sdk_replying {| written := lit "boom"; exit_code := Some 2%Z |}))
    as [_ [Hjob [Hauto _]]].
  split.
  - apply (Hjob (Some (lit "my-job")) None false false None 100%Z
                {| written := lit "boom"; exit_code := Some 2%Z |} eq_refl).
  - apply (Hauto (lit "c1") 100%Z
                 {| written := lit "boom"; exit_code := Some 2%Z |} eq_refl).
Defined.

(* ================================================================= *)
(** ** The request resolver *)

Section ResolverFacts.

Context {A : Type}.
Variable sky_get : pystr -> fetch A.
Variable futures_TimeoutError : exc_class.

(** A fetch that ends within the bound with a result: the result is
    returned unchanged, when the fetch ends. *)
Lemma resolve_request_returns
  (request_id : pystr) (timeout d : Z) (r : A) :
  sky_get request_id = Completes d (Returned r) ->
  (d <= timeout)%Z ->
  resolve_request sky_get futures_TimeoutError request_id (Some timeout)
  = Some (d, Returned r).
Proof.
  intros Hf Hd. unfold resolve_request, future_result, pool_exit.
  rewrite Hf. destruct (Z.leb_spec d timeout); [|lia].
  cbn [fst snd]. rewrite Z.max_id. reflexivity.
Qed.

(** A fetch that ends within the bound with a failure other than the
    futures' timeout: the failure propagates unchanged. *)
Lemma resolve_request_propagates
  (request_id : pystr) (timeout d : Z) (e : exc) :
  sky_get request_id = Completes d (Raised e) ->
  (d <= timeout)%Z ->
  isinstance e futures_TimeoutError = false ->
  resolve_request sky_get futures_TimeoutError request_id (Some timeout)
  = Some (d, Raised e).
Proof.
  intros Hf Hd He. unfold resolve_request, future_result, pool_exit.
  rewrite Hf. destruct (Z.leb_spec d timeout); [|lia].
  rewrite He. cbn [fst snd]. rewrite Z.max_id. reflexivity.
Qed.

(** A fetch that ends after the bound: [TimeoutError] with the message
    naming the request and the bound is raised, but only once the fetch
    has ended. *)
Lemma resolve_request_late
  (request_id : pystr) (timeout d : Z) (o : outcome A) :
  sky_get request_id = Completes d o ->
  (timeout < d)%Z ->
  resolve_request sky_get futures_TimeoutError request_id (Some timeout)
  = Some (d, Raised (new_TimeoutError
                       (lit "Request " ++ request_id
                        ++ lit " did not complete within "
                        ++ str_of_int timeout ++ lit "s. "
                        ++ lit "The request may still be running on the server. "
                        ++ lit "Use skypilot_api_status to check its status."))).
Proof.
  intros Hf Hd. unfold resolve_request, future_result, pool_exit.
  rewrite Hf. destruct (Z.leb_spec d timeout); [lia|].
  cbn [fst snd]. rewrite Z.max_r by lia. reflexivity.
Qed.

(** A fetch that never ends: the function is never left, whatever the
    bound. *)
Lemma resolve_request_hangs (request_id : pystr) (timeout : option Z) :
  sky_get request_id = Never ->
  resolve_request sky_get futures_TimeoutError request_id timeout = None.
Proof.
  intros Hf. unfold resolve_request, future_result, pool_exit.
  rewrite Hf. reflexivity.
Qed.

End ResolverFacts.

Lemma default_timeout_below_tool_timeout :
  DEFAULT_RESOLVE_TIMEOUT = 580%Z
  /\ (DEFAULT_RESOLVE_TIMEOUT < MCP_TOOL_TIMEOUT)%Z.
Proof. split; [reflexivity | unfold DEFAULT_RESOLVE_TIMEOUT, MCP_TOOL_TIMEOUT; lia]. Qed.

(** C4, at the input where the code departs from it.  With a bound of
    one second: a fetch that never ends leaves [resolve_request] blocked
    for ever, no [TimeoutError] is raised; and a fetch that ends after
    five seconds has [resolve_request] raise its [TimeoutError] at five
    seconds, not at one. *)
Theorem resolve_request_blocks_past_timeout :
  resolve_request (fun _ => @Never value) TimeoutError
                  (lit "req-slow-001") (Some 1%Z)
  = None
  /\ resolve_request (fun _ => Completes 5%Z (Returned (VList [])))
                     TimeoutError (lit "req-slow-001") (Some 1%Z)
     = Some (5%Z,
             Raised (new_TimeoutError
                       (lit "Request req-slow-001 did not complete within 1s. The request may still be running on the server. Use skypilot_api_status to check its status."))).
Proof. split; reflexivity. Qed.

(* ================================================================= *)
(** ** The serializer: enum members *)

(** C3, at the inputs where the code departs from it.  The value of an
    enum member is returned as it is, without being serialized: for a
    member whose value is a byte string the result of
    [_make_serializable] is that byte string, which is not a canonical
    value; for a member whose value is a dict with a tuple key,
    [safe_json_serialize] raises [TypeError]. *)
Theorem enum_value_not_serialized :
  forall (lt : value -> value -> option bool) (strc : value -> pystr),
    make_serializable lt strc (VEnum (lit "Blob.RAW") (VBytes [xff; xfe]))
    = VBytes [xff; xfe]
    /\ canonical (VBytes [xff; xfe]) = false
    /\ safe_json_serialize lt strc
         (VEnum (lit "Shape.GRID")
                (VDict [(VTuple [VInt 1; VInt 2], VInt 3)]))
       = Raised (Exc TypeError [PyException; PyBaseException]
                     (lit "keys must be str, int, float, bool or None")
                     None).
Proof. intros lt strc. repeat split. Qed.

(** C10, at the input where the code departs from it.  For an enum
    member whose value is a tuple, serializing once gives the tuple and
    serializing the result gives a list: the two differ. *)
Theorem enum_value_breaks_idempotence :
  forall (lt : value -> value -> option bool) (strc : value -> pystr),
    make_serializable lt strc
      (VEnum (lit "Size.SMALL") (VTuple [VInt 1; VInt 2]))
    = VTuple [VInt 1; VInt 2]
    /\ make_serializable lt strc
         (make_serializable lt strc
            (VEnum (lit "Size.SMALL") (VTuple [VInt 1; VInt 2])))
       = VList [VInt 1; VInt 2]
    /\ VList [VInt 1; VInt 2] <> VTuple [VInt 1; VInt 2].
Proof. intros lt strc. repeat split. discriminate. Qed.

(* ================================================================= *)
(** ** The serializer: sets *)

Section SetFacts.

Variable lt : value -> value -> option bool.
Variable str_compound : value -> pystr.

Local Abbreviation ser := (make_serializable lt str_compound).

Lemma insert_on_decorated {B : Type} (key : B -> value) (g : value -> B)
  (Hkey : forall x, key (g x) = x) (x : value) (l : list value) :
  insert_on lt key (g x) (map g l)
  = option_map (map g) (insert_on lt (fun y => y) x l).
Proof.
  induction l as [|y r IH]; simpl.
  - reflexivity.
  - rewrite !Hkey. destruct (lt x y) as [[|]|]; simpl; try reflexivity.
    rewrite IH. destruct (insert_on lt (fun y0 => y0) x r); reflexivity.
Qed.

Lemma sorted_on_decorated {B : Type} (key : B -> value) (g : value -> B)
  (Hkey : forall x, key (g x) = x) (l : list value) :
  sorted_on lt key (map g l) = option_map (map g) (sorted lt l).
Proof.
  unfold sorted, sorted_on.
  change (Some (@nil B)) with (option_map (map g) (Some [])).
  generalize (Some (@nil value)) as acc.
  induction l as [|x r IH]; intros acc; simpl.
  - reflexivity.
  - rewrite <- IH. f_equal. destruct acc as [a|]; simpl; [|reflexivity].
    apply insert_on_decorated. exact Hkey.
Qed.

(** The set rule as the source writes it: the serialized elements of
    [sorted(obj)], or of [obj] itself when sorting raises. *)
Lemma make_serializable_set (items : list value) :
  ser (VSet items)
  = match sorted lt items with
    | Some l => VList (map ser l)
    | None => VList (map ser items)
    end.
Proof.
  cbn [make_serializable].
  rewrite (sorted_on_decorated fst (fun item => (item, ser item)))
    by reflexivity.
  destruct (sorted lt items) as [l|]; simpl; rewrite map_map; simpl;
    rewrite map_ext with (g := ser) by reflexivity; reflexivity.
Qed.

Lemma insert_on_perm (x : value) (l l' : list value) :
  insert_on lt (fun y => y) x l = Some l' -> Permutation (x :: l) l'.
Proof.
  revert l'. induction l as [|y r IH]; simpl; intros l' H.
  - injection H as <-. apply Permutation_refl.
  - destruct (lt x y) as [[|]|]; try discriminate.
    + injection H as <-. apply Permutation_refl.
    + destruct (insert_on lt (fun y0 => y0) x r) as [r'|]; [|discriminate].
      injection H as <-. rewrite perm_swap. apply perm_skip. apply IH.
      reflexivity.
Qed.

Lemma sorted_from_perm (l acc l' : list value) :
  fold_left (fun a x => match a with
                        | Some a' => insert_on lt (fun y => y) x a'
                        | None => None
                        end) l (Some acc) = Some l' ->
  Permutation (l ++ acc) l'.
Proof.
  revert acc. induction l as [|x r IH]; simpl; intros acc H.
  - injection H as <-. apply Permutation_refl.
  - destruct (insert_on lt (fun y => y) x acc) as [a|] eqn:E.
    + apply IH in H. apply insert_on_perm in E.
      rewrite <- H. rewrite <- E. apply Permutation_middle.
    + exfalso. clear -H. induction r as [|z r IHr]; simpl in H;
        [discriminate | exact (IHr H)].
Qed.

(** [sorted], when it returns, returns a rearrangement of its input. *)
Lemma sorted_perm (l l' : list value) :
  sorted lt l = Some l' -> Permutation l l'.
Proof.
  intros H. apply sorted_from_perm in H. rewrite app_nil_r in H. exact H.
Qed.

Section Orderable.

(** The elements that are compared, and what makes them mutually
    orderable: any two of them can be compared, and [<] is a strict
    order on them. *)
Variable elems : list value.
Hypothesis comparable :
  forall x y, In x elems -> In y elems -> lt x y <> None.
Hypothesis asymmetric :
  forall x y, In x elems -> In y elems ->
              lt x y = Some true -> lt y x = Some false.
Hypothesis transitive :
  forall x y z, In x elems -> In y elems -> In z elems ->
                lt x y = Some true -> lt y z = Some true ->
                lt x z = Some true.

Lemma insert_on_sorted (x : value) (l : list value) :
  In x elems -> incl l elems -> StronglySorted (not_after lt) l ->
  exists l', insert_on lt (fun y => y) x l = Some l'
             /\ StronglySorted (not_after lt) l'.
Proof.
  intros Hx. induction l as [|y r IH]; intros Hl Hs; simpl.
  - eexists. split; [reflexivity|]. repeat constructor.
  - assert (Hy : In y elems) by (apply Hl; left; reflexivity).
    assert (Hr : incl r elems) by (intros z Hz; apply Hl; right; exact Hz).
    inversion Hs as [|? ? Hsr Hall]; subst.
    destruct (lt x y) as [[|]|] eqn:Exy.
    + eexists. split; [reflexivity|]. constructor; [exact Hs|].
      constructor.
      * apply asymmetric; assumption.
      * rewrite Forall_forall in *. intros z Hz. unfold not_after in *.
        assert (Hzin : In z elems) by (apply Hr; exact Hz).
        destruct (lt z x) as [[|]|] eqn:Ezx.
        -- pose proof (transitive z x y Hzin Hx Hy Ezx Exy) as Hzy.
           pose proof (Hall z Hz) as Hn. unfold not_after in Hn. congruence.
        -- reflexivity.
        -- exfalso. exact (comparable z x Hzin Hx Ezx).
    + destruct (IH Hr Hsr) as [r' [Er Hsr']]. rewrite Er. simpl.
      eexists. split; [reflexivity|]. constructor; [exact Hsr'|].
      apply insert_on_perm in Er.
      eapply Permutation_Forall; [exact Er|].
      constructor; [exact Exy | exact Hall].
    + exfalso. exact (comparable x y Hx Hy Exy).
Qed.

Lemma sorted_from_sorted (l acc : list value) :
  incl l elems -> incl acc elems -> StronglySorted (not_after lt) acc ->
  exists l', fold_left (fun a x => match a with
                                   | Some a' => insert_on lt (fun y => y) x a'
                                   | None => None
                                   end) l (Some acc) = Some l'
             /\ StronglySorted (not_after lt) l'.
Proof.
  revert acc. induction l as [|x r IH]; intros acc Hl Hacc Hs; simpl.
  - eexists. split; [reflexivity | exact Hs].
  - assert (Hx : In x elems) by (apply Hl; left; reflexivity).
    destruct (insert_on_sorted x acc Hx Hacc Hs) as [a [Ea Hsa]].
    rewrite Ea. apply IH.
    + intros z Hz. apply Hl. right. exact Hz.
    + apply insert_on_perm in Ea. intros z Hz.
      apply (Permutation_in _ (Permutation_sym Ea)) in Hz.
      destruct Hz as [<- | Hz]; [exact Hx | apply Hacc; exact Hz].
    + exact Hsa.
Qed.

(** On mutually orderable elements [sorted] returns, and what it returns
    is in ascending order. *)
Lemma sorted_sorted :
  exists l, sorted lt elems = Some l
            /\ Permutation elems l
            /\ StronglySorted (not_after lt) l.
Proof.
  destruct (sorted_from_sorted elems [] (incl_refl _)) as [l [El Hs]].
  - intros z [].
  - constructor.
  - exists l. split; [exact El|]. split; [|exact Hs].
    apply sorted_perm. exact El.
Qed.

End Orderable.

End SetFacts.

(** On a list that [<] orders totally there is one ascending
    arrangement only. *)
Lemma sorted_unique
  (lt : value -> value -> option bool) (l1 : list value) :
  forall l2,
    StronglySorted (not_after lt) l1 ->
    StronglySorted (not_after lt) l2 ->
    Permutation l1 l2 ->
    (forall x y, In x l1 -> In y l1 ->
                 not_after lt x y -> not_after lt y x -> x = y) ->
    l1 = l2.
Proof.
  induction l1 as [|a t1 IH]; intros l2 H1 H2 Hp Hanti.
  - apply Permutation_nil in Hp. symmetry. exact Hp.
  - destruct l2 as [|b t2].
    + apply Permutation_sym, Permutation_nil in Hp. discriminate Hp.
    + inversion H1 as [|? ? Hs1 Ha]; subst.
      inversion H2 as [|? ? Hs2 Hb]; subst.
      assert (Hab : a = b).
      { assert (Hbin : In b (a :: t1))
          by (apply (Permutation_in _ (Permutation_sym Hp)); left; reflexivity).
        assert (Hain : In a (b :: t2))
          by (apply (Permutation_in _ Hp); left; reflexivity).
        destruct Hbin as [Hbin | Hbin]; [exact Hbin|].
        destruct Hain as [Hain | Hain]; [symmetry; exact Hain|].
        rewrite Forall_forall in Ha, Hb.
        apply Hanti.
        - left. reflexivity.
        - right. exact Hbin.
        - apply Ha. exact Hbin.
        - apply Hb. exact Hain. }
      subst b. f_equal. apply IH.
      * exact Hs1.
      * exact Hs2.
      * apply (Permutation_cons_inv Hp).
      * intros x y Hx Hy. apply Hanti; right; assumption.
Qed.




(* ================================================================= *)
(** ** The serializer: byte strings *)

Ltac nlia := zify; Z.to_euclidean_division_equations; lia.

Section CodecFacts.

Local Open Scope N_scope.

Lemma to_N_byte_of (n : N) : n < 256 -> Byte.to_N (byte_of n) = n.
Proof.
  intros H. unfold byte_of. destruct (Byte.of_N n) as [b|] eqn:E.
  - apply Byte.to_of_N. exact E.
  - apply Byte.of_N_None_iff in E. lia.
Qed.

Lemma byte_of_to_N (b : byte) : byte_of (Byte.to_N b) = b.
Proof. unfold byte_of. rewrite Byte.of_to_N. reflexivity. Qed.

Lemma to_N_lt (b : byte) : Byte.to_N b < 256.
Proof. pose proof (Byte.to_N_bounded b). lia. Qed.

(** The alphabet and its inverse, on the 64 six-bit groups. *)
Lemma b64_char_facts (i : N) :
  i < 64 ->
  b64_index (b64_char i) = Some i
  /\ (b64_char i =? b64_pad) = false
  /\ (b64_char i <? 128) = true.
Proof.
  intros H. rewrite <- (N2Nat.id i).
  assert (Hn : (N.to_nat i < 64)%nat) by lia.
  generalize dependent (N.to_nat i). clear H. intros n Hn.
  do 64 (destruct n as [|n]; [vm_compute; repeat split|]).
  lia.
Qed.

Lemma b64decode_full (i1 i2 i3 i4 : N) (r : pystr) :
  i1 < 64 -> i2 < 64 -> i3 < 64 -> i4 < 64 ->
  b64decode (b64_char i1 :: b64_char i2 :: b64_char i3 :: b64_char i4 :: r)
  = option_map
      (fun bs => byte_of (i1 * 4 + i2 / 16)
                 :: byte_of ((i2 mod 16) * 16 + i3 / 4)
                 :: byte_of ((i3 mod 4) * 64 + i4) :: bs)
      (b64decode r).
Proof.
  intros H1 H2 H3 H4.
  destruct (b64_char_facts i1 H1) as [E1 _].
  destruct (b64_char_facts i2 H2) as [E2 _].
  destruct (b64_char_facts i3 H3) as [E3 _].
  destruct (b64_char_facts i4 H4) as [E4 [P4 _]].
  cbn [b64decode]. rewrite E1, E2, E3, E4, P4. reflexivity.
Qed.

Lemma b64decode_two (i1 i2 i3 : N) :
  i1 < 64 -> i2 < 64 -> i3 < 64 ->
  b64decode [b64_char i1; b64_char i2; b64_char i3; b64_pad]
  = Some [byte_of (i1 * 4 + i2 / 16);
          byte_of ((i2 mod 16) * 16 + i3 / 4)].
Proof.
  intros H1 H2 H3.
  destruct (b64_char_facts i1 H1) as [E1 _].
  destruct (b64_char_facts i2 H2) as [E2 _].
  destruct (b64_char_facts i3 H3) as [E3 [P3 _]].
  cbn [b64decode]. rewrite E1, E2, E3, P3. reflexivity.
Qed.

Lemma b64decode_one (i1 i2 : N) :
  i1 < 64 -> i2 < 64 ->
  b64decode [b64_char i1; b64_char i2; b64_pad; b64_pad]
  = Some [byte_of (i1 * 4 + i2 / 16)].
Proof.
  intros H1 H2.
  destruct (b64_char_facts i1 H1) as [E1 _].
  destruct (b64_char_facts i2 H2) as [E2 _].
  cbn [b64decode]. rewrite E1, E2. reflexivity.
Qed.

(** Induction on byte strings three bytes at a time. *)
Lemma bytes_ind3 (P : list byte -> Prop) :
  P [] -> (forall a, P [a]) -> (forall a b, P [a; b]) ->
  (forall a b c r, P r -> P (a :: b :: c :: r)) ->
  forall l, P l.
Proof.
  intros H0 H1 H2 H3 l.
  assert (H : P l /\ (forall a, P (a :: l)) /\ (forall a b, P (a :: b :: l))).
  { induction l as [|c r [IH0 [IH1 IH2]]].
    - auto.
    - split; [apply IH1|]. split; [intros a; apply IH2|].
      intros a b. apply H3. exact IH0. }
  apply H.
Qed.

(** Base64 round trip: decoding the encoding gives the bytes back. *)
Lemma b64decode_b64encode (bs : list byte) :
  b64decode (b64encode bs) = Some bs.
Proof.
  induction bs as [|a|a b|a b c r IH] using bytes_ind3.
  - reflexivity.
  - cbn [b64encode]. pose proof (to_N_lt a).
    rewrite b64decode_one by nlia.
    replace (_ + _) with (Byte.to_N a) by nlia.
    rewrite byte_of_to_N. reflexivity.
  - cbn [b64encode]. pose proof (to_N_lt a). pose proof (to_N_lt b).
    rewrite b64decode_two by nlia.
    replace (Byte.to_N a / 4 * 4 + _) with (Byte.to_N a) by nlia.
    replace (_ * 16 + _) with (Byte.to_N b) by nlia.
    rewrite !byte_of_to_N. reflexivity.
  - cbn [b64encode].
    pose proof (to_N_lt a). pose proof (to_N_lt b). pose proof (to_N_lt c).
    rewrite b64decode_full by nlia. rewrite IH. cbn [option_map].
    replace (Byte.to_N a / 4 * 4 + _) with (Byte.to_N a) by nlia.
    replace (_ * 16 + _) with (Byte.to_N b) by nlia.
    replace (_ * 64 + _) with (Byte.to_N c) by nlia.
    rewrite !byte_of_to_N. reflexivity.
Qed.

Lemma b64_char_ascii (i : N) : i < 64 -> (b64_char i <? 128) = true.
Proof. intros H. apply (b64_char_facts i H). Qed.

(** The encoding is ASCII text. *)
Lemma b64encode_ascii (bs : list byte) :
  forallb (fun c => c <? 128) (b64encode bs) = true.
Proof.
  induction bs as [|a|a b|a b c r IH] using bytes_ind3.
  - reflexivity.
  - cbn [b64encode forallb]. pose proof (to_N_lt a).
    rewrite !b64_char_ascii by nlia. reflexivity.
  - cbn [b64encode forallb]. pose proof (to_N_lt a). pose proof (to_N_lt b).
    rewrite !b64_char_ascii by nlia. reflexivity.
  - cbn [b64encode forallb].
    pose proof (to_N_lt a). pose proof (to_N_lt b). pose proof (to_N_lt c).
    rewrite !b64_char_ascii by nlia.
    rewrite IH. reflexivity.
Qed.

(** Settling the range tests of the decoder and of the encoder. *)
Ltac to_arith :=
  unfold is_cont, scalar;
  repeat progress
    (rewrite ?andb_true_iff, ?orb_true_iff, ?negb_true_iff,
       ?N.leb_le, ?N.ltb_lt, ?N.eqb_eq, ?N.eqb_neq).

Ltac to_arith_in H :=
  unfold is_cont, scalar in H;
  repeat progress
    (rewrite ?andb_true_iff, ?orb_true_iff, ?negb_true_iff,
       ?N.leb_le, ?N.ltb_lt, ?N.eqb_eq, ?N.eqb_neq in H).

Ltac settle_head :=
  lazymatch goal with
  | |- (if ?t then _ else _) = _ =>
      let H := fresh in
      first [ assert (H : t = true) by (to_arith; nlia)
            | assert (H : t = false)
                by (apply not_true_is_false; to_arith; nlia) ];
      rewrite H; clear H; cbv beta iota
  end.

(** One character: decoding what the encoder wrote gives the character
    back. *)
Lemma utf8_decode_encode_char (c : N) (rest : list byte) :
  scalar c = true ->
  utf8_decode (utf8_encode_char c ++ rest)
  = option_map (cons c) (utf8_decode rest).
Proof.
  intros Hc. to_arith_in Hc. unfold utf8_encode_char.
  destruct (N.ltb_spec c 128) as [H1|H1];
    [|destruct (N.ltb_spec c 2048) as [H2|H2];
      [|destruct (N.ltb_spec c 65536) as [H3|H3]]];
    cbn [app utf8_decode]; rewrite !to_N_byte_of by nlia;
    repeat settle_head; do 2 f_equal; nlia.
Qed.

Lemma utf8_encode_char_1 (b0 : byte) :
  Byte.to_N b0 < 128 ->
  scalar (Byte.to_N b0) = true
  /\ utf8_encode_char (Byte.to_N b0) = [b0].
Proof.
  intros H. split; [to_arith; nlia|].
  unfold utf8_encode_char. repeat settle_head.
  rewrite byte_of_to_N. reflexivity.
Qed.

Lemma utf8_encode_char_2 (b0 b1 : byte) (c : N) :
  c = (Byte.to_N b0 - 192) * 64 + (Byte.to_N b1 - 128) ->
  194 <= Byte.to_N b0 <= 223 ->
  128 <= Byte.to_N b1 <= 191 ->
  scalar c = true /\ utf8_encode_char c = [b0; b1].
Proof.
  intros Hc H0 H1. split; [to_arith; nlia|].
  unfold utf8_encode_char. repeat settle_head.
  replace (192 + c / 64) with (Byte.to_N b0) by nlia.
  replace (128 + c mod 64) with (Byte.to_N b1) by nlia.
  rewrite !byte_of_to_N. reflexivity.
Qed.

Lemma utf8_encode_char_3 (b0 b1 b2 : byte) (c : N) :
  c = (Byte.to_N b0 - 224) * 4096 + (Byte.to_N b1 - 128) * 64
      + (Byte.to_N b2 - 128) ->
  224 <= Byte.to_N b0 <= 239 ->
  128 <= Byte.to_N b1 <= 191 ->
  128 <= Byte.to_N b2 <= 191 ->
  (Byte.to_N b0 = 224 -> 160 <= Byte.to_N b1) ->
  (Byte.to_N b0 = 237 -> Byte.to_N b1 <= 159) ->
  scalar c = true /\ utf8_encode_char c = [b0; b1; b2].
Proof.
  intros Hc H0 H1 H2 Hlo Hhi. split; [to_arith; nlia|].
  unfold utf8_encode_char. repeat settle_head.
  replace (224 + c / 4096) with (Byte.to_N b0) by nlia.
  replace (128 + (c / 64) mod 64) with (Byte.to_N b1) by nlia.
  replace (128 + c mod 64) with (Byte.to_N b2) by nlia.
  rewrite !byte_of_to_N. reflexivity.
Qed.

Lemma utf8_encode_char_4 (b0 b1 b2 b3 : byte) (c : N) :
  c = (Byte.to_N b0 - 240) * 262144 + (Byte.to_N b1 - 128) * 4096
      + (Byte.to_N b2 - 128) * 64 + (Byte.to_N b3 - 128) ->
  240 <= Byte.to_N b0 <= 244 ->
  128 <= Byte.to_N b1 <= 191 ->
  128 <= Byte.to_N b2 <= 191 ->
  128 <= Byte.to_N b3 <= 191 ->
  (Byte.to_N b0 = 240 -> 144 <= Byte.to_N b1) ->
  (Byte.to_N b0 = 244 -> Byte.to_N b1 <= 143) ->
  scalar c = true /\ utf8_encode_char c = [b0; b1; b2; b3].
Proof.
  intros Hc H0 H1 H2 H3 Hlo Hhi. split; [to_arith; nlia|].
  unfold utf8_encode_char. repeat settle_head.
  replace (240 + c / 262144) with (Byte.to_N b0) by nlia.
  replace (128 + (c / 4096) mod 64) with (Byte.to_N b1) by nlia.
  replace (128 + (c / 64) mod 64) with (Byte.to_N b2) by nlia.
  replace (128 + c mod 64) with (Byte.to_N b3) by nlia.
  rewrite !byte_of_to_N. reflexivity.
Qed.

(** UTF-8 round trip: decoding the encoding of text gives the text. *)
Lemma utf8_decode_encode (s : pystr) :
  forallb scalar s = true -> utf8_decode (utf8_encode s) = Some s.
Proof.
  induction s as [|c r IH]; cbn [forallb utf8_encode flat_map].
  - reflexivity.
  - intros H. apply andb_true_iff in H. destruct H as [Hc Hr].
    rewrite utf8_decode_encode_char by exact Hc.
    fold (utf8_encode r). rewrite (IH Hr). reflexivity.
Qed.

(** Whatever the decoder accepts is the encoding of the text it
    returns, and that text holds scalar values only. *)
Lemma utf8_decode_sound (n : nat) :
  forall (bs : list byte) (s : pystr),
    (List.length bs <= n)%nat ->
    utf8_decode bs = Some s ->
    forallb scalar s = true /\ utf8_encode s = bs.
Proof.
  induction n as [|n IH]; intros bs s Hlen H.
  - destruct bs; [|simpl in Hlen; lia]. injection H as <-. split; reflexivity.
  - destruct bs as [|b0 r0]; [injection H as <-; split; reflexivity|].
    cbn [utf8_decode] in H. cbn [List.length] in Hlen.
    destruct (Byte.to_N b0 <? 128) eqn:T1.
    { destruct (utf8_decode r0) as [t|] eqn:E; [|discriminate].
      injection H as <-. destruct (IH r0 t ltac:(lia) E) as [Hs He].
      to_arith_in T1. destruct (utf8_encode_char_1 b0 T1) as [Hc Hb].
      cbn [forallb utf8_encode flat_map]. fold (utf8_encode t).
      rewrite Hc, Hs, Hb, He. split; reflexivity. }
    destruct ((194 <=? Byte.to_N b0) && (Byte.to_N b0 <=? 223)) eqn:T2.
    { destruct r0 as [|b1 r1]; [discriminate|].
      destruct (is_cont (Byte.to_N b1)) eqn:C1; [|discriminate].
      destruct (utf8_decode r1) as [t|] eqn:E; [|discriminate].
      injection H as <-. cbn [List.length] in Hlen.
      destruct (IH r1 t ltac:(lia) E) as [Hs He].
      to_arith_in T2. to_arith_in C1.
      destruct (utf8_encode_char_2 b0 b1 _ eq_refl T2 C1) as [Hc Hb].
      cbn [forallb utf8_encode flat_map]. fold (utf8_encode t).
      rewrite Hc, Hs, Hb, He. split; reflexivity. }
    destruct ((224 <=? Byte.to_N b0) && (Byte.to_N b0 <=? 239)) eqn:T3.
    { destruct r0 as [|b1 [|b2 r2]]; try discriminate.
      destruct (is_cont (Byte.to_N b1)) eqn:C1; [|discriminate].
      destruct (is_cont (Byte.to_N b2)) eqn:C2; [|discriminate].
      destruct (negb (Byte.to_N b0 =? 224) || (160 <=? Byte.to_N b1))
        eqn:L; [|discriminate].
      destruct (negb (Byte.to_N b0 =? 237) || (Byte.to_N b1 <=? 159))
        eqn:U; [|discriminate].
      cbn [andb] in H.
      destruct (utf8_decode r2) as [t|] eqn:E; [|discriminate].
      injection H as <-. cbn [List.length] in Hlen.
      destruct (IH r2 t ltac:(lia) E) as [Hs He].
      to_arith_in T3. to_arith_in C1. to_arith_in C2.
      to_arith_in L. to_arith_in U.
      destruct (utf8_encode_char_3 b0 b1 b2 _ eq_refl T3 C1 C2
                  ltac:(lia) ltac:(lia)) as [Hc Hb].
      cbn [forallb utf8_encode flat_map]. fold (utf8_encode t).
      rewrite Hc, Hs, Hb, He. split; reflexivity. }
    destruct ((240 <=? Byte.to_N b0) && (Byte.to_N b0 <=? 244)) eqn:T4;
      [|discriminate].
    destruct r0 as [|b1 [|b2 [|b3 r3]]]; try discriminate.
    destruct (is_cont (Byte.to_N b1)) eqn:C1; [|discriminate].
    destruct (is_cont (Byte.to_N b2)) eqn:C2; [|discriminate].
    destruct (is_cont (Byte.to_N b3)) eqn:C3; [|discriminate].
    destruct (negb (Byte.to_N b0 =? 240) || (144 <=? Byte.to_N b1))
      eqn:L; [|discriminate].
    destruct (negb (Byte.to_N b0 =? 244) || (Byte.to_N b1 <=? 143))
      eqn:U; [|discriminate].
    cbn [andb] in H.
    destruct (utf8_decode r3) as [t|] eqn:E; [|discriminate].
    injection H as <-. cbn [List.length] in Hlen.
    destruct (IH r3 t ltac:(lia) E) as [Hs He].
    to_arith_in T4. to_arith_in C1. to_arith_in C2. to_arith_in C3.
    to_arith_in L. to_arith_in U.
    destruct (utf8_encode_char_4 b0 b1 b2 b3 _ eq_refl T4 C1 C2 C3
                ltac:(lia) ltac:(lia)) as [Hc Hb].
    cbn [forallb utf8_encode flat_map]. fold (utf8_encode t).
    rewrite Hc, Hs, Hb, He. split; reflexivity.
Qed.

(** The decoder accepts exactly the encodings of text. *)
Lemma utf8_decode_iff (bs : list byte) (s : pystr) :
  utf8_decode bs = Some s <-> forallb scalar s = true /\ utf8_encode s = bs.
Proof.
  split.
  - apply (utf8_decode_sound (List.length bs)). apply le_n.
  - intros [Hs <-]. apply utf8_decode_encode. exact Hs.
Qed.

End CodecFacts.

(** C8.  A byte string that is valid UTF-8, that is the encoding of
    some text, serializes to that text.  A byte string that is not valid
    UTF-8 serializes to its Base64 encoding, which is ASCII text and
    which Base64 decoding turns back into the very same bytes. *)
Theorem bytes_serialized
  (lt : value -> value -> option bool) (strc : value -> pystr)
  (bs : list byte) :
  (forall s : pystr,
      forallb scalar s = true -> utf8_encode s = bs ->
      make_serializable lt strc (VBytes bs) = VStr s)
  /\ (~ valid_utf8 bs ->
      make_serializable lt strc (VBytes bs) = VStr (b64encode bs)
      /\ forallb (fun c => (c <? 128)%N) (b64encode bs) = true
      /\ b64decode (b64encode bs) = Some bs).
Proof.
  split.
  - intros s Hs He. cbn [make_serializable].
    rewrite (proj2 (utf8_decode_iff bs s) (conj Hs He)). reflexivity.
  - intros Hinvalid. cbn [make_serializable].
    destruct (utf8_decode bs) as [s|] eqn:E.
    + exfalso. apply Hinvalid. exists s. apply utf8_decode_iff. exact E.
    + split; [reflexivity|]. split.
      * apply b64encode_ascii.
      * apply b64decode_b64encode.
Qed.

Lemma bytes_serialized_witness :
  make_serializable lt_scalar str_opaque
    (VBytes [x68; x65; x6c; x6c; x6f])
  = VStr (lit "hello")
  /\ (make_serializable lt_scalar str_opaque (VBytes [xff; xfe])
      = VStr (lit "//4=")
      /\ forallb (fun c => (c <? 128)%N) (b64encode [xff; xfe]) = true
      /\ b64decode (lit "//4=") = Some [xff; xfe]).
Proof.
  split.
  - apply (proj1 (bytes_serialized lt_scalar str_opaque
                    [x68; x65; x6c; x6c; x6f]) (lit "hello"));
      reflexivity.
  - apply (proj2 (bytes_serialized lt_scalar str_opaque [xff; xfe])).
    intros [s Hs]. apply utf8_decode_iff in Hs. discriminate Hs.
Defined.

(* ================================================================= *)
(** ** The serializer: canonical results *)

Lemma str_eqb_eq (a b : pystr) : str_eqb a b = true <-> a = b.
Proof.
  revert b. induction a as [|x a IH]; destruct b as [|y b]; simpl;
    try (split; [discriminate | discriminate]); [tauto|].
  rewrite andb_true_iff, N.eqb_eq, IH. split.
  - intros [-> ->]. reflexivity.
  - intros [= -> ->]. split; reflexivity.
Qed.

Lemma str_eqb_sym (a b : pystr) : str_eqb a b = str_eqb b a.
Proof.
  destruct (str_eqb a b) eqn:E1; destruct (str_eqb b a) eqn:E2;
    try reflexivity.
  - apply str_eqb_eq in E1. subst. 
    assert (H : str_eqb b b = true) by (apply str_eqb_eq; reflexivity).
    congruence.
  - apply str_eqb_eq in E2. subst.
    assert (H : str_eqb a a = true) by (apply str_eqb_eq; reflexivity).
    congruence.
Qed.

Lemma key_in_app (a : pystr) (d1 d2 : list (value * value)) :
  key_in a (d1 ++ d2) = key_in a d1 || key_in a d2.
Proof. unfold key_in. apply existsb_app. Qed.

(** After [d[k] = v] the keys are those of [d], and [k]. *)
Lemma key_in_dict_set (a k : pystr) (v : value) (d : list (value * value)) :
  key_in a (dict_set k v d) = key_in a d || str_eqb a k.
Proof.
  induction d as [|[k' v'] r IH]; simpl.
  - apply orb_false_r.
  - destruct k'; simpl; try exact IH.
    destruct (str_eqb s k) eqn:E; simpl.
    + apply str_eqb_eq in E. subst.
      destruct (str_eqb a k), (key_in a r); reflexivity.
    + fold (key_in a (dict_set k v r)). rewrite IH.
      fold (key_in a r). apply orb_assoc.
Qed.

Lemma dict_set_canonical (k : pystr) (v : value) (d : list (value * value)) :
  canonical v = true -> canonical_dict d = true ->
  canonical_dict (dict_set k v d) = true.
Proof.
  intros Hv. unfold canonical_dict.
  induction d as [|[k' v'] r IH]; simpl.
  - intros _. rewrite Hv. reflexivity.
  - intros H. apply andb_true_iff in H. destruct H as [H1 H2].
    apply andb_true_iff in H1. destruct H1 as [Hkv Hall].
    apply andb_true_iff in Hkv. destruct Hkv as [Hk Hv'].
    apply andb_true_iff in H2. destruct H2 as [Hnew Hd].
    destruct k'; try discriminate Hk.
    destruct (str_eqb s k) eqn:E; simpl.
    + rewrite Hv, Hall, Hnew, Hd. reflexivity.
    + rewrite Hv'. simpl.
      assert (Hr : forallb (fun kv => is_str (fst kv) && canonical (snd kv))
                           (dict_set k v r)
                   && distinct_keys (dict_set k v r) = true).
      { apply IH. rewrite Hall, Hd. reflexivity. }
      apply andb_true_iff in Hr. destruct Hr as [Hr1 Hr2].
      rewrite Hr1, Hr2, key_in_dict_set, E.
      apply negb_true_iff in Hnew. rewrite Hnew. reflexivity.
Qed.

Lemma dict_of_canonical_from
  (pairs : list (pystr * value)) (acc : list (value * value)) :
  Forall (fun kv => canonical (snd kv) = true) pairs ->
  canonical_dict acc = true ->
  canonical_dict
    (fold_left (fun d kv => dict_set (fst kv) (snd kv) d) pairs acc) = true.
Proof.
  intros H. revert acc. induction H as [|kv r Hkv _ IH]; intros acc Hacc.
  - exact Hacc.
  - simpl. apply IH. apply dict_set_canonical; assumption.
Qed.

(** A dict comprehension over canonical values is a canonical dict. *)
Lemma dict_of_canonical (pairs : list (pystr * value)) :
  Forall (fun kv => canonical (snd kv) = true) pairs ->
  canonical (VDict (dict_of pairs)) = true.
Proof.
  intros H. apply (dict_of_canonical_from pairs [] H). reflexivity.
Qed.

Lemma dict_set_absent (k : pystr) (v : value) (d : list (value * value)) :
  key_in k d = false -> dict_set k v d = d ++ [(VStr k, v)].
Proof.
  induction d as [|[k' v'] r IH]; simpl.
  - reflexivity.
  - intros H. apply orb_false_iff in H. destruct H as [Hk Hr].
    destruct k'; try (rewrite (IH Hr); reflexivity).
    rewrite str_eqb_sym, Hk. rewrite (IH Hr). reflexivity.
Qed.

Lemma distinct_keys_absent
  (s : pystr) (v : value) (acc r : list (value * value)) :
  distinct_keys (acc ++ (VStr s, v) :: r) = true -> key_in s acc = false.
Proof.
  induction acc as [|[k' v'] acc IH]; simpl.
  - reflexivity.
  - intros H. apply andb_true_iff in H. destruct H as [Hk Hd].
    rewrite (IH Hd). destruct k'; try reflexivity.
    apply negb_true_iff in Hk. rewrite key_in_app in Hk.
    apply orb_false_iff in Hk. destruct Hk as [_ Hk]. simpl in Hk.
    apply orb_false_iff in Hk. destruct Hk as [Hk _].
    rewrite str_eqb_sym, Hk. reflexivity.
Qed.

(** Writing the entries of a dict with distinct string keys into a dict,
    one after the other, writes them at its end. *)
Lemma dict_of_rebuild_from (d acc : list (value * value)) :
  forallb (fun kv => is_str (fst kv)) d = true ->
  distinct_keys (acc ++ d) = true ->
  fold_left (fun a kv => dict_set (fst kv) (snd kv) a)
            (map (fun kv => (match fst kv with
                             | VStr s => s
                             | _ => []
                             end, snd kv)) d) acc
  = acc ++ d.
Proof.
  revert acc. induction d as [|[k v] r IH]; intros acc Hs Hd; simpl.
  - symmetry. apply app_nil_r.
  - simpl in Hs. apply andb_true_iff in Hs. destruct Hs as [Hk Hs].
    destruct k; try discriminate Hk.
    rewrite (dict_set_absent s v acc (distinct_keys_absent s v acc r Hd)).
    rewrite IH.
    + rewrite <- app_assoc. reflexivity.
    + exact Hs.
    + rewrite <- app_assoc. exact Hd.
Qed.

Section CanonicalFacts.

Variable lt : value -> value -> option bool.
Variable str_compound : value -> pystr.

Local Abbreviation ser := (make_serializable lt str_compound).

(** Every canonical value is a fixed point of the serializer. *)
Lemma canonical_fixed_point (x : value) :
  canonical x = true -> ser x = x.
Proof.
  induction x using value_ind_nested; intros Hc; try reflexivity;
    try discriminate Hc.
  - (* dict *)
    cbn [canonical] in Hc. apply andb_true_iff in Hc.
    destruct Hc as [Hall Hd]. cbn [make_serializable]. f_equal.
    unfold dict_of.
    rewrite map_ext_in
      with (g := fun kv => (match fst kv with VStr s => s | _ => [] end,
                            snd kv)).
    + apply (dict_of_rebuild_from items []); [|exact Hd].
      rewrite forallb_forall in *. intros kv Hin.
      specialize (Hall kv Hin). apply andb_true_iff in Hall. apply Hall.
    + intros kv Hin. rewrite Forall_forall in H.
      rewrite forallb_forall in Hall. specialize (Hall kv Hin).
      apply andb_true_iff in Hall. destruct Hall as [Hk Hv].
      rewrite (proj2 (H kv Hin) Hv).
      destruct (fst kv); try discriminate Hk. reflexivity.
  - (* list *)
    cbn [canonical] in Hc. cbn [make_serializable]. f_equal.
    rewrite forallb_forall in Hc. rewrite Forall_forall in H.
    rewrite map_ext_in with (g := fun y => y).
    + apply map_id.
    + intros y Hin. apply H; [exact Hin | apply Hc; exact Hin].
Qed.

(** Apart from the value of an enum member, everything the serializer
    returns is canonical. *)
Lemma make_serializable_canonical (x : value) :
  enums_canonical x = true -> canonical (ser x) = true.
Proof.
  induction x using value_ind_nested; intros He;
    try reflexivity; cbn [enums_canonical] in He.
  - (* model_dump *) cbn [make_serializable]. apply IHx. exact He.
  - (* dict() *) cbn [make_serializable]. apply IHx. exact He.
  - (* dataclass *)
    cbn [make_serializable]. apply dict_of_canonical.
    rewrite Forall_map. rewrite Forall_forall in *.
    rewrite forallb_forall in He. intros f Hin. cbn [snd].
    apply H; [exact Hin | apply He; exact Hin].
  - (* enum *) cbn [make_serializable]. exact He.
  - (* set *)
    rewrite make_serializable_set.
    assert (Hall : forall l, Permutation items l ->
                             forallb canonical (map ser l) = true).
    { intros l Hp. rewrite forallb_forall. intros y Hy.
      apply in_map_iff in Hy. destruct Hy as [z [<- Hz]].
      apply (Permutation_in _ (Permutation_sym Hp)) in Hz.
      rewrite Forall_forall in H. rewrite forallb_forall in He.
      apply H; [exact Hz | apply He; exact Hz]. }
    destruct (sorted lt items) as [l|] eqn:El; cbn [canonical].
    + apply Hall. apply (sorted_perm lt). exact El.
    + apply Hall. apply Permutation_refl.
  - (* dict *)
    cbn [make_serializable]. apply dict_of_canonical.
    rewrite Forall_map. rewrite Forall_forall in *.
    rewrite forallb_forall in He. intros kv Hin. cbn [snd].
    apply (proj2 (H kv Hin)). apply He. exact Hin.
  - (* list *)
    cbn [make_serializable canonical]. rewrite forallb_forall.
    intros y Hy. apply in_map_iff in Hy. destruct Hy as [z [<- Hz]].
    rewrite Forall_forall in H. rewrite forallb_forall in He.
    apply H; [exact Hz | apply He; exact Hz].
  - (* tuple *)
    cbn [make_serializable canonical]. rewrite forallb_forall.
    intros y Hy. apply in_map_iff in Hy. destruct Hy as [z [<- Hz]].
    rewrite Forall_forall in H. rewrite forallb_forall in He.
    apply H; [exact Hz | apply He; exact Hz].
  - (* bytes *)
    cbn [make_serializable]. destruct (utf8_decode b); reflexivity.
Qed.

(** Hence the serializer is idempotent on every object whose enum
    members have canonical values. *)
Lemma make_serializable_idempotent (x : value) :
  enums_canonical x = true -> ser (ser x) = ser x.
Proof.
  intros He. apply canonical_fixed_point.
  apply make_serializable_canonical. exact He.
Qed.

Lemma all_some_map {X Y : Type} (f : X -> option Y) (l : list X) :
  Forall (fun x => exists y, f x = Some y) l ->
  exists ys, all_some (map f l) = Some ys.
Proof.
  induction 1 as [|x r [y Hy] _ [ys IH]]; unfold all_some in *;
    cbn [map fold_right].
  - eexists. reflexivity.
  - rewrite Hy, IH. eexists. reflexivity.
Qed.

(** [json.dumps] accepts every canonical value. *)
Lemma json_dumps_canonical (default_str : bool) (x : value) :
  canonical x = true ->
  exists j, json_dumps str_compound default_str x = Some j.
Proof.
  induction x using value_ind_nested; intros Hc;
    try discriminate Hc; cbn [json_dumps]; try (eexists; reflexivity).
  - (* dict *)
    cbn [canonical] in Hc. apply andb_true_iff in Hc.
    destruct Hc as [Hall _]. rewrite forallb_forall in Hall.
    rewrite Forall_forall in H.
    destruct (all_some_map
                (fun kv =>
                   match json_key (fst kv),
                         json_dumps str_compound default_str (snd kv)
                   with
                   | Some k, Some j => Some (k, j)
                   | _, _ => None
                   end) items) as [ys Hys].
    + rewrite Forall_forall. intros kv Hin.
      specialize (Hall kv Hin). apply andb_true_iff in Hall.
      destruct Hall as [Hk Hv].
      destruct (proj2 (H kv Hin) Hv) as [j Hj]. rewrite Hj.
      destruct (fst kv); try discriminate Hk. eexists. reflexivity.
    + rewrite Hys. eexists. reflexivity.
  - (* list *)
    cbn [canonical] in Hc. rewrite forallb_forall in Hc.
    rewrite Forall_forall in H.
    destruct (all_some_map (json_dumps str_compound default_str) items)
      as [ys Hys].
    + rewrite Forall_forall. intros y Hin.
      apply H; [exact Hin | apply Hc; exact Hin].
    + rewrite Hys. eexists. reflexivity.
Qed.

(** [safe_json_serialize] returns on every object whose enum members
    have canonical values. *)
Lemma safe_json_serialize_returns (x : value) :
  enums_canonical x = true ->
  exists j, safe_json_serialize lt str_compound x = Returned j.
Proof.
  intros He. unfold safe_json_serialize.
  destruct (json_dumps_canonical true (ser x)
              (make_serializable_canonical x He)) as [j Hj].
  rewrite Hj. eexists. reflexivity.
Qed.

(** The fallback rule always gives the text of the object: [json.dumps]
    has no form for an object that no earlier rule took. *)
Lemma fallback_is_text (s : pystr) :
  ser (VObject s) = VStr s.
Proof. reflexivity. Qed.

End CanonicalFacts.

(* ################################################################# *)
(** * Further properties *)

(* ================================================================= *)
(** ** The decorator *)


(** X1.  A decorated function that returns makes the same SDK calls as
    the function itself and returns the same value. *)
Theorem decorated_success_unchanged
  {Args A : Type} (func : Args -> prog A) (args : Args) (k : sdk)
  (cs : list sdk_call) (a : A)
  (Hreturns : run k (func args) = (cs, Returned a)) :
  run k (handle_skypilot_error func args) = (cs, Returned a).
Proof.
  unfold handle_skypilot_error.
  rewrite run_handle_skypilot_error, Hreturns. reflexivity.
Qed.

Lemma decorated_success_unchanged_witness :
  run (sdk_replying {| written := lit "log line"; exit_code := Some 0%Z |})
      (handle_skypilot_error
         (fun tail => capture_serve_logs (lit "svc") (lit "controller")
                                         None tail) 50%Z)
  = ([Serve_tail_logs (lit "svc") (lit "controller") None false (Some 50%Z)],
     Returned (lit "log line")).
Proof.
  apply (decorated_success_unchanged
           (fun tail => capture_serve_logs (lit "svc") (lit "controller")
                                           None tail) 50%Z).
  reflexivity.
Defined.



(* ================================================================= *)
(** ** The request resolver *)

(** X3.  When the fetch ends within the bound ([timeout], or the default
    580 seconds when none is given) with a result, or with a failure
    that is not the futures' [TimeoutError], [resolve_request] ends at
    the same moment with that very result or failure. *)
Theorem resolve_request_within_bound
  {A : Type} (sky_get : pystr -> fetch A) (futures_TimeoutError : exc_class)
  (request_id : pystr) (timeout : option Z) (d : Z) (o : outcome A)
  (Hfetch : sky_get request_id = Completes d o)
  (Hbound : (d <= match timeout with
                  | Some t => t
                  | None => 580
                  end)%Z)
  (Hother : forall e, o = Raised e ->
                      isinstance e futures_TimeoutError = false) :
  resolve_request sky_get futures_TimeoutError request_id timeout
  = Some (d, o).
Proof.
  unfold resolve_request, future_result, pool_exit, DEFAULT_RESOLVE_TIMEOUT.
  rewrite Hfetch.
  destruct (Z.leb_spec d (match timeout with Some t => t | None => 580%Z end));
    [|lia].
  destruct o as [r | e]; cbn [fst snd].
  - rewrite Z.max_id. reflexivity.
  - rewrite (Hother e eq_refl). cbn [fst snd]. rewrite Z.max_id. reflexivity.
Qed.

Lemma resolve_request_within_bound_witness :
  resolve_request
    (fun _ => Completes 0%Z
                (Returned (VList [VDict [(VStr (lit "name"),
                                          VStr (lit "cluster-1"))]])))
    TimeoutError (lit "req-ok-001") (Some 5%Z)
  = Some (0%Z,
          Returned (VList [VDict [(VStr (lit "name"),
                                   VStr (lit "cluster-1"))]])).
Proof.
  apply (resolve_request_within_bound
           (fun _ => Completes 0%Z
                       (Returned (VList [VDict [(VStr (lit "name"),
                                                 VStr (lit "cluster-1"))]])))
           TimeoutError (lit "req-ok-001") (Some 5%Z) 0%Z _ eq_refl).
  - simpl. lia.
  - intros e He. discriminate He.
Defined.

(** X4.  [resolve_request] is left exactly when the fetch ends: if it is
    left at time [t] then the fetch ended at [t], and if the fetch ends
    at [d] then it is left at [d]; it is never left while the worker
    thread is still running, and never left if the fetch never ends. *)
Theorem resolve_request_left_when_fetch_ends
  {A : Type} (sky_get : pystr -> fetch A) (futures_TimeoutError : exc_class)
  (request_id : pystr) (timeout : option Z) :
  (forall t o,
      resolve_request sky_get futures_TimeoutError request_id timeout
      = Some (t, o) ->
      exists o', sky_get request_id = Completes t o')
  /\ (forall d o',
         sky_get request_id = Completes d o' ->
         exists o,
           resolve_request sky_get futures_TimeoutError request_id timeout
           = Some (d, o))
  /\ (sky_get request_id = Never ->
      resolve_request sky_get futures_TimeoutError request_id timeout
      = None).
Proof.
  unfold resolve_request, future_result, pool_exit.
  set (bound := match timeout with
                | Some t => t
                | None => DEFAULT_RESOLVE_TIMEOUT
                end).
  destruct (sky_get request_id) as [d o' |].
  - assert (Hexit : forall body : Z * outcome A,
               (fst body <= d)%Z -> Z.max (fst body) d = d)
      by (intros; lia).
    assert (Hd : exists o,
               (let body :=
                  match (if (d <=? bound)%Z then Done d o' else GivenUp bound)
                  with
                  | Done t (Returned r) => (t, Returned r)
                  | Done t (Raised e) =>
                      if isinstance e futures_TimeoutError
                      then (t, Raised (new_TimeoutError
                                         (resolve_timeout_message
                                            request_id bound)))
                      else (t, Raised e)
                  | GivenUp t =>
                      (t, Raised (new_TimeoutError
                                    (resolve_timeout_message
                                       request_id bound)))
                  end in
                Some (Z.max (fst body) d, snd body)) = Some (d, o)).
    { destruct (Z.leb_spec d bound).
      - destruct o' as [r | e]; [|destruct (isinstance e futures_TimeoutError)];
          cbn [fst snd]; rewrite Z.max_id; eexists; reflexivity.
      - cbn [fst snd]. rewrite Z.max_r by lia. eexists. reflexivity. }
    split; [|split].
    + intros t o H. destruct Hd as [o0 Hd]. cbv zeta in Hd.
      rewrite Hd in H. injection H as <- _. exists o'. reflexivity.
    + intros d0 o0 [= <- <-]. exact Hd.
    + discriminate.
  - split; [|split].
    + discriminate.
    + discriminate.
    + reflexivity.
Qed.

Lemma resolve_request_left_when_fetch_ends_witness :
  exists o,
    resolve_request (fun _ => Completes 5%Z (Returned (VList [])))
                    TimeoutError (lit "req-slow-001") (Some 1%Z)
    = Some (5%Z, o).
Proof.
  apply (proj1 (proj2 (resolve_request_left_when_fetch_ends
                         (fun _ => Completes 5%Z (Returned (VList [])))
                         TimeoutError (lit "req-slow-001") (Some 1%Z)))
               5%Z (Returned (VList []))).
  reflexivity.
Defined.

(** X5.  When the fetch ends after the bound, [resolve_request] raises a
    [TimeoutError] whose message names the request and the bound in
    seconds and tells to check the request with [skypilot_api_status];
    the result or failure of the fetch is dropped. *)
Theorem resolve_request_timeout_message
  {A : Type} (sky_get : pystr -> fetch A) (futures_TimeoutError : exc_class)
  (request_id : pystr) (timeout : option Z) (d : Z) (o : outcome A)
  (Hfetch : sky_get request_id = Completes d o)
  (Hlate : (match timeout with
            | Some t => t
            | None => 580
            end < d)%Z) :
  exists t,
    resolve_request sky_get futures_TimeoutError request_id timeout
    = Some (t,
            Raised
              (new_TimeoutError
                 (lit "Request " ++ request_id
                  ++ lit " did not complete within "
                  ++ str_of_int (match timeout with
                                 | Some t => t
                                 | None => 580
                                 end)
                  ++ lit "s. "
                  ++ lit "The request may still be running on the server. "
                  ++ lit "Use skypilot_api_status to check its status."))).
Proof.
  unfold resolve_request, future_result, pool_exit, DEFAULT_RESOLVE_TIMEOUT.
  rewrite Hfetch.
  destruct (Z.leb_spec d (match timeout with Some t => t | None => 580%Z end));
    [lia|].
  cbn [fst snd]. eexists. reflexivity.
Qed.

Lemma resolve_request_timeout_message_witness :
  exists t,
    resolve_request (fun _ => Completes 700%Z (Returned (VList [])))
                    TimeoutError (lit "abc") None
    = Some (t,
            Raised
              (new_TimeoutError
                 (lit "Request abc did not complete within 580s. The request may still be running on the server. Use skypilot_api_status to check its status."))).
Proof.
  apply (resolve_request_timeout_message
           (fun _ => Completes 700%Z (Returned (VList [])))
           TimeoutError (lit "abc") None 700%Z (Returned (VList [])) eq_refl).
  simpl. lia.
Defined.

(** X6.  A failure of the fetch that is itself an instance of the
    futures' [TimeoutError] (the built-in [TimeoutError] from Python 3.11
    on) is taken for an expired wait, even when the fetch ended within
    the bound: it is replaced by the resolver's own [TimeoutError], and
    its message is lost. *)
Theorem resolve_request_masks_fetch_timeout
  {A : Type} (sky_get : pystr -> fetch A) (futures_TimeoutError : exc_class)
  (request_id : pystr) (timeout d : Z) (e : exc)
  (Hfetch : sky_get request_id = Completes d (Raised e))
  (Hbound : (d <= timeout)%Z)
  (Htimeout : isinstance e futures_TimeoutError = true) :
  resolve_request sky_get futures_TimeoutError request_id (Some timeout)
  = Some (d, Raised (new_TimeoutError
                       (resolve_timeout_message request_id timeout))).
Proof.
  unfold resolve_request, future_result, pool_exit. rewrite Hfetch.
  destruct (Z.leb_spec d timeout); [|lia].
  rewrite Htimeout. cbn [fst snd]. rewrite Z.max_id. reflexivity.
Qed.

Lemma resolve_request_masks_fetch_timeout_witness :
  resolve_request
    (fun _ => @Completes value 2%Z
                (Raised (new_TimeoutError (lit "socket timed out"))))
    TimeoutError (lit "abc") (Some 580%Z)
  = Some (2%Z,
          Raised (new_TimeoutError
                    (lit "Request abc did not complete within 580s. The request may still be running on the server. Use skypilot_api_status to check its status."))).
Proof.
  apply (resolve_request_masks_fetch_timeout
           (fun _ => @Completes value 2%Z
                       (Raised (new_TimeoutError (lit "socket timed out"))))
           TimeoutError (lit "abc") 580%Z 2%Z
           (new_TimeoutError (lit "socket timed out")) eq_refl).
  - lia.
  - reflexivity.
Defined.

(* ================================================================= *)
(** ** The serializer *)



(** X8.  Every canonical value (null, boolean, number, string, list of
    canonical values, dict from distinct strings to canonical values) is
    returned by [_make_serializable] as it is. *)
Theorem canonical_value_unchanged
  (lt : value -> value -> option bool) (strc : value -> pystr) (x : value)
  (Hcanonical : canonical x = true) :
  make_serializable lt strc x = x.
Proof. apply canonical_fixed_point. exact Hcanonical. Qed.

Lemma canonical_value_unchanged_witness :
  make_serializable lt_scalar str_opaque
    (VDict [(VStr (lit "key"), VStr (lit "value"));
            (VStr (lit "num"), VList [VInt 42; VNone; VBool true])])
  = VDict [(VStr (lit "key"), VStr (lit "value"));
           (VStr (lit "num"), VList [VInt 42; VNone; VBool true])].
Proof.
  apply (canonical_value_unchanged lt_scalar str_opaque). reflexivity.
Defined.

(** X9.  On every object whose enum members have canonical values,
    serializing the serialized form changes nothing. *)
Theorem serializer_idempotent
  (lt : value -> value -> option bool) (strc : value -> pystr) (x : value)
  (Henums : enums_canonical x = true) :
  make_serializable lt strc (make_serializable lt strc x)
  = make_serializable lt strc x.
Proof. apply make_serializable_idempotent. exact Henums. Qed.

Lemma serializer_idempotent_witness :
  make_serializable lt_scalar str_opaque
    (make_serializable lt_scalar str_opaque
       (VModel (VDict [(VInt 1, VTuple [VPath (lit "/tmp/a")]);
                       (VStr (lit "s"), VSet [VInt 2; VInt 1])])))
  = make_serializable lt_scalar str_opaque
      (VModel (VDict [(VInt 1, VTuple [VPath (lit "/tmp/a")]);
                      (VStr (lit "s"), VSet [VInt 2; VInt 1])])).
Proof.
  apply (serializer_idempotent lt_scalar str_opaque). reflexivity.
Defined.

Lemma dict_get_dict_set (s k : pystr) (v : value) (d : list (value * value)) :
  dict_get s (dict_set k v d)
  = if str_eqb s k then Some v else dict_get s d.
Proof.
  induction d as [|[k' v'] r IH]; cbn [dict_set dict_get].
  - rewrite (str_eqb_sym k s). reflexivity.
  - destruct k'; cbn [dict_get]; try exact IH.
    destruct (str_eqb s0 k) eqn:Ek; cbn [dict_get].
    + apply str_eqb_eq in Ek. subst s0. rewrite (str_eqb_sym k s).
      destruct (str_eqb s k); reflexivity.
    + destruct (str_eqb s0 s) eqn:Es.
      * apply str_eqb_eq in Es. subst s0. rewrite Ek. reflexivity.
      * exact IH.
Qed.

Lemma dict_get_dict_of_from
  (s : pystr) (pairs : list (pystr * value)) (acc : list (value * value)) :
  dict_get s (fold_left (fun d kv => dict_set (fst kv) (snd kv) d) pairs acc)
  = fold_left (fun a kv => if str_eqb (fst kv) s then Some (snd kv) else a)
              pairs (dict_get s acc).
Proof.
  revert acc. induction pairs as [|[k v] r IH]; intros acc; cbn [fold_left].
  - reflexivity.
  - rewrite IH. cbn [fst snd]. rewrite dict_get_dict_set.
    rewrite (str_eqb_sym k s). reflexivity.
Qed.

Lemma dict_set_keys (k : pystr) (v : value) (d : list (value * value)) :
  forallb (fun kv => is_str (fst kv)) d && distinct_keys d = true ->
  forallb (fun kv => is_str (fst kv)) (dict_set k v d)
  && distinct_keys (dict_set k v d) = true.
Proof.
  induction d as [|[k' v'] r IH]; cbn [dict_set forallb distinct_keys fst].
  - reflexivity.
  - intros H. apply andb_true_iff in H. destruct H as [H1 H2].
    apply andb_true_iff in H1. destruct H1 as [Hk Hall].
    apply andb_true_iff in H2. destruct H2 as [Hnew Hd].
    destruct k'; try discriminate Hk.
    destruct (str_eqb s k) eqn:E; cbn [forallb distinct_keys fst is_str].
    + rewrite Hall, Hnew, Hd. reflexivity.
    + assert (Hr : forallb (fun kv => is_str (fst kv)) (dict_set k v r)
                   && distinct_keys (dict_set k v r) = true).
      { apply IH. rewrite Hall, Hd. reflexivity. }
      apply andb_true_iff in Hr. destruct Hr as [Hr1 Hr2].
      rewrite Hr1, Hr2, key_in_dict_set, E.
      apply negb_true_iff in Hnew. rewrite Hnew. reflexivity.
Qed.

Lemma dict_of_keys_from
  (pairs : list (pystr * value)) (acc : list (value * value)) :
  forallb (fun kv => is_str (fst kv)) acc && distinct_keys acc = true ->
  forallb (fun kv => is_str (fst kv))
          (fold_left (fun d kv => dict_set (fst kv) (snd kv) d) pairs acc)
  && distinct_keys
       (fold_left (fun d kv => dict_set (fst kv) (snd kv) d) pairs acc)
  = true.
Proof.
  revert acc. induction pairs as [|kv r IH]; intros acc Hacc; cbn [fold_left].
  - exact Hacc.
  - apply IH. apply dict_set_keys. exact Hacc.
Qed.

(** X10.  Serializing a dict gives a dict whose keys are strings, no
    two of them equal, and in which looking up a string gives the
    serialized value of the last entry of the original whose key has that
    string as its [str()]: when the [str()] of two keys coincide (as for
    [1] and ["1"]) one entry is left and the later value wins. *)
Theorem serialized_dict_lookup
  (lt : value -> value -> option bool) (strc : value -> pystr)
  (items : list (value * value)) :
  exists d,
    make_serializable lt strc (VDict items) = VDict d
    /\ forallb (fun kv => is_str (fst kv)) d = true
    /\ distinct_keys d = true
    /\ forall s,
        dict_get s d
        = last_value s
            (map (fun kv => (py_str strc (fst kv),
                             make_serializable lt strc (snd kv))) items).
Proof.
  eexists. split; [reflexivity|].
  pose proof (dict_of_keys_from
                (map (fun kv => (py_str strc (fst kv),
                                 make_serializable lt strc (snd kv))) items)
                [] eq_refl) as Hk.
  apply andb_true_iff in Hk. destruct Hk as [Hk1 Hk2].
  split; [exact Hk1|]. split; [exact Hk2|].
  intros s. unfold dict_of, last_value. apply dict_get_dict_of_from.
Qed.

(** X11.  For a set whose elements are mutually orderable and pairwise
    distinct under the order, the serialized list does not depend on the
    order in which the set is iterated: two iteration orders of the same
    elements give the same result. *)
Theorem set_result_independent_of_iteration_order
  (lt : value -> value -> option bool) (strc : value -> pystr)
  (items items' : list value)
  (Hsame : Permutation items items')
  (comparable : forall x y, In x items -> In y items -> lt x y <> None)
  (asymmetric : forall x y, In x items -> In y items ->
                            lt x y = Some true -> lt y x = Some false)
  (transitive : forall x y z, In x items -> In y items -> In z items ->
                              lt x y = Some true -> lt y z = Some true ->
                              lt x z = Some true)
  (distinct : forall x y, In x items -> In y items ->
                          lt x y = Some false -> lt y x = Some false ->
                          x = y) :
  make_serializable lt strc (VSet items)
  = make_serializable lt strc (VSet items').
Proof.
  assert (Hback : forall x, In x items' -> In x items)
    by (intros x; apply Permutation_in; apply Permutation_sym; exact Hsame).
  destruct (sorted_sorted lt items comparable asymmetric transitive)
    as [l [El [Hp Hs]]].
  destruct (sorted_sorted lt items') as [l' [El' [Hp' Hs']]].
  - intros x y Hx Hy. apply comparable; apply Hback; assumption.
  - intros x y Hx Hy. apply asymmetric; apply Hback; assumption.
  - intros x y z Hx Hy Hz. apply transitive; apply Hback; assumption.
  - rewrite !make_serializable_set, El, El'.
    rewrite (sorted_unique lt l l' Hs Hs').
    + reflexivity.
    + rewrite <- Hp, <- Hp'. exact Hsame.
    + intros x y Hx Hy Hxy Hyx.
      apply (Permutation_in _ (Permutation_sym Hp)) in Hx.
      apply (Permutation_in _ (Permutation_sym Hp)) in Hy.
      apply distinct; assumption.
Qed.

Lemma set_result_independent_of_iteration_order_witness :
  make_serializable lt_scalar str_opaque (VSet [VInt 3; VInt 1; VInt 2])
  = make_serializable lt_scalar str_opaque (VSet [VInt 2; VInt 3; VInt 1]).
Proof.
  assert (Hin : forall x, In x [VInt 3; VInt 1; VInt 2] ->
                          x = VInt 3 \/ x = VInt 1 \/ x = VInt 2).
  { intros x [<- | [<- | [<- | []]]]; auto. }
  apply (set_result_independent_of_iteration_order lt_scalar str_opaque
           [VInt 3; VInt 1; VInt 2] [VInt 2; VInt 3; VInt 1]).
  - apply Permutation_sym.
    apply (Permutation_cons_app [VInt 3; VInt 1] [] (VInt 2)).
    apply Permutation_refl.
  - intros x y Hx Hy.
    destruct (Hin x Hx) as [-> | [-> | ->]];
      destruct (Hin y Hy) as [-> | [-> | ->]]; discriminate.
  - intros x y Hx Hy.
    destruct (Hin x Hx) as [-> | [-> | ->]];
      destruct (Hin y Hy) as [-> | [-> | ->]];
      vm_compute; congruence.
  - intros x y z Hx Hy Hz.
    destruct (Hin x Hx) as [-> | [-> | ->]];
      destruct (Hin y Hy) as [-> | [-> | ->]];
      destruct (Hin z Hz) as [-> | [-> | ->]];
      vm_compute; congruence.
  - intros x y Hx Hy.
    destruct (Hin x Hx) as [-> | [-> | ->]];
      destruct (Hin y Hy) as [-> | [-> | ->]];
      vm_compute; congruence.
Defined.

(* ================================================================= *)
(** ** The decorated tools *)

Lemma surfaced_ValueError (msg : pystr) :
  surfaced (new_ValueError msg)
  = new_ToolError_from (lit "Invalid input: " ++ msg) (new_ValueError msg).
Proof. reflexivity. Qed.

Lemma surfaced_RuntimeError (msg : pystr) :
  surfaced (new_RuntimeError msg)
  = new_ToolError_from (lit "RuntimeError: " ++ msg) (new_RuntimeError msg).
Proof. reflexivity. Qed.

Lemma surfaced_TimeoutError (msg : pystr) :
  surfaced (new_TimeoutError msg)
  = new_ToolError_from (lit "Timeout: " ++ msg) (new_TimeoutError msg).
Proof. reflexivity. Qed.

(** Running one computation after another. *)
Lemma run_bind {A B : Type} (k : sdk) (p : prog A) (f : A -> prog B) :
  run k (bind p f)
  = match run k p with
    | (cs, Returned a) => (cs ++ fst (run k (f a)), snd (run k (f a)))
    | (cs, Raised e) => (cs, Raised e)
    end.
Proof.
  induction p as [a | e | c kont IH]; cbn [bind run].
  - destruct (run k (f a)). reflexivity.
  - reflexivity.
  - rewrite IH. destruct (run k (kont (k c))) as [cs [a | e]]; reflexivity.
Qed.

(** X12.  Each of the tools [skypilot_job_logs] and
    [skypilot_managed_job_logs] depends on the answer to its own SDK call
    only: when that call reports a non-zero exit code the tool raises a
    [ToolError] whose message is ["RuntimeError: "] followed by the
    message of the helper's [RuntimeError], which is its cause; with exit
    code 0 or [None] it returns the captured text. *)
Theorem log_tools_exit_code (repr : pystr -> pystr) (k : sdk) :
  (forall cluster_name job_id tail r,
      k (Tail_logs cluster_name job_id false (Some tail)) = Returned r ->
      result k (skypilot_job_logs repr cluster_name job_id tail)
      = (if exit_truthy (exit_code r) then
           Raised
             (new_ToolError_from
                (lit "RuntimeError: Failed to retrieve logs for cluster "
                 ++ repr cluster_name ++ lit " (job_id="
                 ++ str_of_opt_int job_id
                 ++ lit "): tail_logs returned exit code "
                 ++ str_of_opt_int (exit_code r) ++ lit ".")
                (new_RuntimeError
                   (lit "Failed to retrieve logs for cluster "
                    ++ repr cluster_name ++ lit " (job_id="
                    ++ str_of_opt_int job_id
                    ++ lit "): tail_logs returned exit code "
                    ++ str_of_opt_int (exit_code r) ++ lit ".")))
         else Returned (written r)))
  /\ (forall name job_id controller refresh task tail r,
         k (Jobs_tail_logs name job_id false controller refresh task
                           (sdk_tail tail)) = Returned r ->
         result k (skypilot_managed_job_logs name job_id controller refresh
                                             task tail)
         = (if exit_truthy (exit_code r) then
              Raised
                (new_ToolError_from
                   (lit "RuntimeError: Failed to retrieve managed job logs ("
                    ++ managed_job_identifier name job_id
                    ++ lit "): tail_logs returned exit code "
                    ++ str_of_opt_int (exit_code r) ++ lit ".")
                   (new_RuntimeError
                      (lit "Failed to retrieve managed job logs ("
                       ++ managed_job_identifier name job_id
                       ++ lit "): tail_logs returned exit code "
                       ++ str_of_opt_int (exit_code r) ++ lit ".")))
            else Returned (written r))).
Proof.
  unfold result, skypilot_job_logs, skypilot_managed_job_logs,
    handle_skypilot_error.
  split.
  - intros cluster_name job_id tail r H.
    rewrite run_handle_skypilot_error.
    unfold capture_cluster_logs, call. cbn [bind run fst snd].
    rewrite H. cbn [bind].
    destruct (exit_truthy (exit_code r)); cbn [run fst snd];
      rewrite ?surfaced_RuntimeError; reflexivity.
  - intros name job_id controller refresh task tail r H.
    rewrite run_handle_skypilot_error.
    unfold capture_managed_job_logs, call. cbn [bind run fst snd].
    rewrite H. cbn [bind].
    destruct (exit_truthy (exit_code r)); cbn [run fst snd];
      rewrite ?surfaced_RuntimeError; reflexivity.
Qed.

Lemma log_tools_exit_code_witness :
  result (sdk_replying {| written := lit "partial"; exit_code := Some 3%Z |})
         (skypilot_job_logs repr_plain (lit "c1") (Some 7%Z) 100%Z)
  = Raised
      (new_ToolError_from
         (lit "RuntimeError: Failed to retrieve logs for cluster 'c1' (job_id=7): tail_logs returned exit code 3.")
         (new_RuntimeError
            (lit "Failed to retrieve logs for cluster 'c1' (job_id=7): tail_logs returned exit code 3."))).
Proof.
  apply (proj1 (log_tools_exit_code
                  repr_plain
                  (sdk_replying {| written := lit "partial";
                                   exit_code := Some 3%Z |}))
               (lit "c1") (Some 7%Z) 100%Z
               {| written := lit "partial"; exit_code := Some 3%Z |} eq_refl).
Defined.

(** X13.  [skypilot_validate] on a task YAML that is [None], empty or
    whitespace only raises the [ToolError] "Invalid input: task_yaml
    must be a non-empty YAML string." without any SDK call; when the
    SDK's parser rejects the YAML, the parser's failure is what the
    decorator translates, the parser is the only SDK call made, and
    validation is not attempted. *)
Theorem validate_rejects_before_validating
  (api : sky_api) (k : sdk) (workdir_only : bool) (s : pystr) :
  run k (skypilot_validate api None workdir_only)
  = ([], Raised (new_ToolError_from
                   (lit "Invalid input: task_yaml must be a non-empty YAML string.")
                   (new_ValueError
                      (lit "task_yaml must be a non-empty YAML string."))))
  /\ (forallb is_space s = true ->
      run k (skypilot_validate api (Some s) workdir_only)
      = ([], Raised (new_ToolError_from
                       (lit "Invalid input: task_yaml must be a non-empty YAML string.")
                       (new_ValueError
                          (lit "task_yaml must be a non-empty YAML string.")))))
  /\ (forall e,
         forallb is_space s = false ->
         k (Load_chain_dag_from_yaml_str s) = Raised e ->
         run k (skypilot_validate api (Some s) workdir_only)
         = ([Load_chain_dag_from_yaml_str s], Raised (surfaced e))).
Proof.
  unfold skypilot_validate, handle_skypilot_error.
  rewrite !run_handle_skypilot_error. split; [reflexivity|]. split.
  - intros Hblank. unfold load_dag_from_yaml.
    rewrite blank_test, Hblank. reflexivity.
  - intros e Hs He. unfold load_dag_from_yaml, call.
    rewrite blank_test, Hs. cbn [bind run]. rewrite He. reflexivity.
Qed.

Lemma validate_rejects_before_validating_witness :
  run (sdk_replying {| written := []; exit_code := None |})
      (skypilot_validate api_example (Some (lit "   ")) false)
  = ([], Raised (new_ToolError_from
                   (lit "Invalid input: task_yaml must be a non-empty YAML string.")
                   (new_ValueError
                      (lit "task_yaml must be a non-empty YAML string.")))).
Proof.
  apply (proj1 (proj2 (validate_rejects_before_validating
                         api_example
                         (sdk_replying {| written := []; exit_code := None |})
                         false (lit "   ")))).
  reflexivity.
Defined.

(** X14.  [skypilot_job_cancel] reaches the SDK's [cancel] exactly when
    one, and only one, of [cancel_all] and a non-empty [job_ids] is
    given.  With both it raises the [ToolError] "Invalid input: Specify
    either job_ids or cancel_all=True, not both.", with neither (an empty
    list counts as none) "Invalid input: Specify job_ids or set
    cancel_all=True."; in both cases no SDK call is made. *)
Theorem job_cancel_validation
  (api : sky_api) (k : sdk) (cluster_name : pystr)
  (job_ids : option (list Z)) (cancel_all all_users : bool) :
  run k (skypilot_job_cancel api cluster_name job_ids cancel_all all_users)
  = (if Bool.eqb cancel_all (list_truthy job_ids) then
       if cancel_all then
         ([], Raised
                (new_ToolError_from
                   (lit "Invalid input: Specify either job_ids or cancel_all=True, not both.")
                   (new_ValueError
                      (lit "Specify either job_ids or cancel_all=True, not both."))))
       else
         ([], Raised
                (new_ToolError_from
                   (lit "Invalid input: Specify job_ids or set cancel_all=True.")
                   (new_ValueError
                      (lit "Specify job_ids or set cancel_all=True."))))
     else
       run k (handle_skypilot_error
                (fun _ : unit =>
                   request_id <- sky_cancel api cluster_name cancel_all
                                            all_users job_ids ;;
                   Ret (JObj [(lit "request_id", JStr request_id);
                              (lit "cluster_name", JStr cluster_name);
                              (lit "message",
                               JStr (lit "Cancel request submitted."))]))
                tt)).
Proof.
  unfold skypilot_job_cancel, handle_skypilot_error.
  destruct cancel_all, (list_truthy job_ids); reflexivity.
Qed.

(** X15.  [skypilot_serve_down] and [skypilot_pool_down] reach the SDK
    exactly when one, and only one, of a non-empty list of names and
    [delete_all] is given; with neither, or with both, they raise a
    [ToolError] "Invalid input: ..." that says which, and make no SDK
    call. *)
Theorem down_tools_validation
  (api : sky_api) (k : sdk) (names : option (list pystr))
  (delete_all purge : bool) :
  run k (skypilot_serve_down api names delete_all purge)
  = (if Bool.eqb delete_all (list_truthy names) then
       if delete_all then
         ([], Raised
                (new_ToolError_from
                   (lit "Invalid input: Specify service_names or delete_all=True, not both.")
                   (new_ValueError
                      (lit "Specify service_names or delete_all=True, not both."))))
       else
         ([], Raised
                (new_ToolError_from
                   (lit "Invalid input: Specify service_names or set delete_all=True.")
                   (new_ValueError
                      (lit "Specify service_names or set delete_all=True."))))
     else
       run k (handle_skypilot_error
                (fun _ : unit =>
                   request_id <- sky_serve_down api names delete_all purge ;;
                   Ret (JObj [(lit "request_id", JStr request_id);
                              (lit "message",
                               JStr (lit "Service down request submitted."))]))
                tt))
  /\ run k (skypilot_pool_down api names delete_all purge)
     = (if Bool.eqb delete_all (list_truthy names) then
          if delete_all then
            ([], Raised
                   (new_ToolError_from
                      (lit "Invalid input: Specify pool_names or delete_all=True, not both.")
                      (new_ValueError
                         (lit "Specify pool_names or delete_all=True, not both."))))
          else
            ([], Raised
                   (new_ToolError_from
                      (lit "Invalid input: Specify pool_names or set delete_all=True.")
                      (new_ValueError
                         (lit "Specify pool_names or set delete_all=True."))))
        else
          run k (handle_skypilot_error
                   (fun _ : unit =>
                      request_id <- sky_jobs_pool_down api names delete_all
                                                       purge ;;
                      Ret (JObj [(lit "request_id", JStr request_id);
                                 (lit "message",
                                  JStr (lit "Pool down request submitted."))]))
                   tt)).
Proof.
  unfold skypilot_serve_down, skypilot_pool_down, handle_skypilot_error.
  destruct delete_all, (list_truthy names); split; reflexivity.
Qed.

(** X16.  [skypilot_managed_job_cancel] reaches the SDK exactly when
    one, and only one, of [name], [job_ids], [cancel_all] and [pool] is
    given, where a [job_ids] that is an empty list counts as given;
    otherwise it raises the [ToolError] "Invalid input: Specify exactly
    one of: name, job_ids, cancel_all=True, or pool." and makes no SDK
    call. *)
Theorem managed_job_cancel_validation
  (api : sky_api) (k : sdk) (name : option pystr)
  (job_ids : option (list Z)) (cancel_all all_users : bool)
  (pool : option pystr) (graceful : bool) (graceful_timeout : option Z) :
  run k (skypilot_managed_job_cancel api name job_ids cancel_all all_users
                                     pool graceful graceful_timeout)
  = (if ((if not_none name then 1 else 0)
         + (if not_none job_ids then 1 else 0)
         + (if cancel_all then 1 else 0)
         + (if not_none pool then 1 else 0) =? 1)%Z
     then
       run k (handle_skypilot_error
                (fun _ : unit =>
                   request_id <- sky_jobs_cancel api name job_ids cancel_all
                                                 all_users pool graceful
                                                 graceful_timeout ;;
                   Ret (JObj [(lit "request_id", JStr request_id);
                              (lit "message",
                               JStr (lit "Managed job cancel request submitted."))]))
                tt)
     else
       ([], Raised
              (new_ToolError_from
                 (lit "Invalid input: Specify exactly one of: name, job_ids, cancel_all=True, or pool.")
                 (new_ValueError
                    (lit "Specify exactly one of: name, job_ids, cancel_all=True, or pool."))))).
Proof.
  unfold skypilot_managed_job_cancel, handle_skypilot_error.
  destruct (not_none name), (not_none job_ids), cancel_all, (not_none pool);
    reflexivity.
Qed.

(** X17.  [skypilot_managed_job_queue] and [skypilot_status_kubernetes]
    turn a resolved list or tuple of four or more elements into an
    object with four named members holding the serialized first four
    elements, in that order; elements beyond the fourth are dropped.  A
    list or tuple of fewer than four elements is serialized as the list
    it is. *)
Theorem unpacked_results
  (lt : value -> value -> option bool) (strc : value -> pystr)
  (r0 r1 r2 r3 : value) (rest short : list value)
  (Hshort : (List.length short < 4)%nat) :
  (make_serializable lt strc
     (managed_job_queue_payload (VTuple (r0 :: r1 :: r2 :: r3 :: rest)))
   = VDict [(VStr (lit "jobs"), make_serializable lt strc r0);
            (VStr (lit "total_count"), make_serializable lt strc r1);
            (VStr (lit "status_counts"), make_serializable lt strc r2);
            (VStr (lit "filtered_count"), make_serializable lt strc r3)]
   /\ make_serializable lt strc
        (managed_job_queue_payload (VList (r0 :: r1 :: r2 :: r3 :: rest)))
      = make_serializable lt strc
          (managed_job_queue_payload (VTuple (r0 :: r1 :: r2 :: r3 :: rest)))
   /\ make_serializable lt strc (managed_job_queue_payload (VTuple short))
      = VList (map (make_serializable lt strc) short)
   /\ make_serializable lt strc (managed_job_queue_payload (VList short))
      = VList (map (make_serializable lt strc) short))
  /\ (make_serializable lt strc
        (status_kubernetes_payload (VTuple (r0 :: r1 :: r2 :: r3 :: rest)))
      = VDict [(VStr (lit "clusters"), make_serializable lt strc r0);
               (VStr (lit "other_clusters"), make_serializable lt strc r1);
               (VStr (lit "managed_jobs"), make_serializable lt strc r2);
               (VStr (lit "context"), make_serializable lt strc r3)]
      /\ make_serializable lt strc
           (status_kubernetes_payload (VList (r0 :: r1 :: r2 :: r3 :: rest)))
         = make_serializable lt strc
             (status_kubernetes_payload
                (VTuple (r0 :: r1 :: r2 :: r3 :: rest)))
      /\ make_serializable lt strc (status_kubernetes_payload (VTuple short))
         = VList (map (make_serializable lt strc) short)
      /\ make_serializable lt strc (status_kubernetes_payload (VList short))
         = VList (map (make_serializable lt strc) short)).
Proof.
  assert (Hs : managed_job_queue_payload (VTuple short) = VTuple short
               /\ managed_job_queue_payload (VList short) = VList short
               /\ status_kubernetes_payload (VTuple short) = VTuple short
               /\ status_kubernetes_payload (VList short) = VList short).
  { destruct short as [|a [|b [|c [|d t]]]]; cbn [List.length] in Hshort;
      try lia; repeat split; reflexivity. }
  destruct Hs as [Hs1 [Hs2 [Hs3 Hs4]]]. rewrite Hs1, Hs2, Hs3, Hs4.
  repeat split; reflexivity.
Qed.

Lemma unpacked_results_witness :
  make_serializable lt_scalar str_opaque
    (managed_job_queue_payload
       (VTuple [VList [VDict [(VStr (lit "job_id"), VInt 1)]]; VInt 1;
                VDict [(VStr (lit "RUNNING"), VInt 1)]; VInt 1; VInt 99]))
  = VDict [(VStr (lit "jobs"),
            VList [VDict [(VStr (lit "job_id"), VInt 1)]]);
           (VStr (lit "total_count"), VInt 1);
           (VStr (lit "status_counts"),
            VDict [(VStr (lit "RUNNING"), VInt 1)]);
           (VStr (lit "filtered_count"), VInt 1)].
Proof.
  apply (proj1 (proj1 (unpacked_results
                         lt_scalar str_opaque
                         (VList [VDict [(VStr (lit "job_id"), VInt 1)]])
                         (VInt 1)
                         (VDict [(VStr (lit "RUNNING"), VInt 1)])
                         (VInt 1) [VInt 99] []
                         ltac:(simpl; lia)))).
Defined.

Section ToolFacts.

Variable api : sky_api.
Variable repr : pystr -> pystr.

Lemma parse_update_mode_invalid (mode : pystr) :
  find (fun m => str_eqb (snd m) mode) (UpdateMode api) = None ->
  parse_update_mode api repr mode
  = Raise (new_ValueError
             (lit "Invalid update mode: " ++ repr mode
              ++ lit ". Must be one of: "
              ++ join (lit ", ") (map snd (UpdateMode api)) ++ lit ".")).
Proof. intros H. unfold parse_update_mode. rewrite H. reflexivity. Qed.

Lemma parse_update_mode_valid (mode : pystr) (m : pystr * pystr) :
  find (fun m => str_eqb (snd m) mode) (UpdateMode api) = Some m ->
  parse_update_mode api repr mode = Ret m.
Proof. intros H. unfold parse_update_mode. rewrite H. reflexivity. Qed.

End ToolFacts.

(** X18.  [skypilot_serve_update] checks the mode before the YAML: a
    mode that is the value of no member of [UpdateMode] (the comparison
    is case-sensitive) raises the [ToolError] "Invalid input: Invalid
    update mode: ..." that quotes the mode and lists the valid values,
    whatever the task YAML is; with a valid mode, a YAML that is [None],
    empty or whitespace only raises the [ToolError] for the YAML.  No
    SDK call is made in either case. *)
Theorem serve_update_checks_mode_first
  (api : sky_api) (repr : pystr -> pystr) (k : sdk)
  (task_yaml : option pystr) (service_name mode : pystr) :
  (find (fun m => str_eqb (snd m) mode) (UpdateMode api) = None ->
   run k (skypilot_serve_update api repr task_yaml service_name mode)
   = ([], Raised
            (new_ToolError_from
               (lit "Invalid input: Invalid update mode: " ++ repr mode
                ++ lit ". Must be one of: "
                ++ join (lit ", ") (map snd (UpdateMode api)) ++ lit ".")
               (new_ValueError
                  (lit "Invalid update mode: " ++ repr mode
                   ++ lit ". Must be one of: "
                   ++ join (lit ", ") (map snd (UpdateMode api))
                   ++ lit ".")))))
  /\ (forall m,
         find (fun m => str_eqb (snd m) mode) (UpdateMode api) = Some m ->
         match task_yaml with
         | Some s => forallb is_space s = true
         | None => True
         end ->
         run k (skypilot_serve_update api repr task_yaml service_name mode)
         = ([], Raised
                  (new_ToolError_from
                     (lit "Invalid input: task_yaml must be a non-empty YAML string.")
                     (new_ValueError
                        (lit "task_yaml must be a non-empty YAML string."))))).
Proof.
  unfold skypilot_serve_update, handle_skypilot_error.
  rewrite !run_handle_skypilot_error. split.
  - intros Hmode. rewrite (parse_update_mode_invalid api repr mode Hmode).
    reflexivity.
  - intros m Hmode Hyaml.
    rewrite (parse_update_mode_valid api repr mode m Hmode).
    cbn [bind]. unfold load_dag_from_yaml.
    destruct task_yaml as [s|]; [|reflexivity].
    rewrite blank_test, Hyaml. reflexivity.
Qed.

Lemma serve_update_checks_mode_first_witness :
  run (sdk_replying {| written := []; exit_code := None |})
      (skypilot_serve_update api_example repr_plain (Some (lit "  "))
                             (lit "svc") (lit "Rolling"))
  = ([], Raised
           (new_ToolError_from
              (lit "Invalid input: Invalid update mode: 'Rolling'. Must be one of: rolling, blue_green.")
              (new_ValueError
                 (lit "Invalid update mode: 'Rolling'. Must be one of: rolling, blue_green.")))).
Proof.
  apply (proj1 (serve_update_checks_mode_first
                  api_example repr_plain
                  (sdk_replying {| written := []; exit_code := None |})
                  (Some (lit "  ")) (lit "svc") (lit "Rolling"))).
  reflexivity.
Defined.

(** X19.  [skypilot_pool_apply], given a valid mode: a task YAML that is
    [None] or the empty string is no task, the YAML parser is not called
    and the SDK's [pool_apply] receives [None]; a task YAML that is not
    empty but holds whitespace only raises the [ToolError] "Invalid
    input: task_yaml must be a non-empty YAML string." and no SDK call is
    made. *)
Theorem pool_apply_empty_and_blank_yaml
  (api : sky_api) (repr : pystr -> pystr) (k : sdk)
  (pool_name mode : pystr) (workers : option Z) (m : pystr * pystr)
  (Hmode : find (fun m => str_eqb (snd m) mode) (UpdateMode api) = Some m) :
  (forall task_yaml,
      task_yaml = None \/ task_yaml = Some [] ->
      run k (skypilot_pool_apply api repr pool_name task_yaml mode workers)
      = run k (handle_skypilot_error
                 (fun _ : unit =>
                    request_id <- sky_jobs_pool_apply api None pool_name m
                                                      workers ;;
                    Ret (JObj [(lit "request_id", JStr request_id);
                               (lit "pool_name", JStr pool_name);
                               (lit "message",
                                JStr (lit "Pool apply request submitted."))]))
                 tt))
  /\ (forall c s,
         forallb is_space (c :: s) = true ->
         run k (skypilot_pool_apply api repr pool_name (Some (c :: s)) mode
                                    workers)
         = ([], Raised
                  (new_ToolError_from
                     (lit "Invalid input: task_yaml must be a non-empty YAML string.")
                     (new_ValueError
                        (lit "task_yaml must be a non-empty YAML string."))))).
Proof.
  unfold skypilot_pool_apply, handle_skypilot_error.
  rewrite (parse_update_mode_valid api repr mode m Hmode). split.
  - intros task_yaml [-> | ->]; reflexivity.
  - intros c s Hblank. rewrite run_handle_skypilot_error.
    cbn [bind]. unfold load_dag_from_yaml.
    rewrite blank_test, Hblank. reflexivity.
Qed.

Lemma pool_apply_empty_and_blank_yaml_witness :
  run (sdk_replying {| written := []; exit_code := None |})
      (skypilot_pool_apply api_example repr_plain (lit "p") (Some (lit " "))
                           (lit "rolling") None)
  = ([], Raised
           (new_ToolError_from
              (lit "Invalid input: task_yaml must be a non-empty YAML string.")
              (new_ValueError
                 (lit "task_yaml must be a non-empty YAML string.")))).
Proof.
  apply (proj2 (pool_apply_empty_and_blank_yaml
                  api_example repr_plain
                  (sdk_replying {| written := []; exit_code := None |})
                  (lit "p") (lit "rolling") None
                  (lit "ROLLING", lit "rolling") eq_refl)
               32%N []).
  reflexivity.
Defined.

(** X20.  [skypilot_get_request] waits with the default bound of 580
    seconds, which is below the 600 seconds the tool is registered with.
    When the fetch ends later than that, the tool raises the [ToolError]
    "Timeout: Request ... did not complete within 580s. ...", caused by
    the resolver's [TimeoutError]; when the fetch never ends the tool is
    never left. *)
Theorem get_request_timeout
  (lt : value -> value -> option bool) (strc : value -> pystr)
  (sky_get : pystr -> fetch value) (futures_TimeoutError : exc_class)
  (request_id : pystr) :
  (DEFAULT_RESOLVE_TIMEOUT < GET_REQUEST_TOOL_TIMEOUT)%Z
  /\ (forall d o,
         sky_get request_id = Completes d o -> (580 < d)%Z ->
         skypilot_get_request lt strc sky_get futures_TimeoutError request_id
         = Some (d,
                 Raised
                   (new_ToolError_from
                      (lit "Timeout: Request " ++ request_id
                       ++ lit " did not complete within 580s. The request may still be running on the server. Use skypilot_api_status to check its status.")
                      (new_TimeoutError
                         (lit "Request " ++ request_id
                          ++ lit " did not complete within 580s. The request may still be running on the server. Use skypilot_api_status to check its status.")))))
  /\ (sky_get request_id = Never ->
      skypilot_get_request lt strc sky_get futures_TimeoutError request_id
      = None).
Proof.
  split; [unfold DEFAULT_RESOLVE_TIMEOUT, GET_REQUEST_TOOL_TIMEOUT; lia|].
  unfold skypilot_get_request. split.
  - intros d o Hf Hd.
    unfold resolve_request, future_result, pool_exit,
      DEFAULT_RESOLVE_TIMEOUT, resolve_timeout_message.
    rewrite Hf. destruct (Z.leb_spec d 580); [lia|].
    cbn [fst snd]. rewrite Z.max_r by lia.
    unfold decorated. rewrite surfaced_TimeoutError. reflexivity.
  - intros Hf.
    rewrite (resolve_request_hangs sky_get futures_TimeoutError request_id
               None Hf).
    reflexivity.
Qed.

Lemma get_request_timeout_witness :
  skypilot_get_request lt_scalar str_opaque
    (fun _ => Completes 700%Z (Returned (VList []))) TimeoutError (lit "abc")
  = Some (700%Z,
          Raised
            (new_ToolError_from
               (lit "Timeout: Request abc did not complete within 580s. The request may still be running on the server. Use skypilot_api_status to check its status.")
               (new_TimeoutError
                  (lit "Request abc did not complete within 580s. The request may still be running on the server. Use skypilot_api_status to check its status.")))).
Proof.
  apply (proj1 (proj2 (get_request_timeout
                         lt_scalar str_opaque
                         (fun _ => Completes 700%Z (Returned (VList [])))
                         TimeoutError (lit "abc")))
               700%Z (Returned (VList [])) eq_refl).
  lia.
Defined.
